(** * power_monitor.py: the RAPL power estimator and the monitoring loop

    A shallow embedding of [PowerMonitor] (src/power_monitor.py): the
    energy-counter read, the estimator [calculate_rapl_power], one sampling
    round [take_measurement], the CSV sink [save_to_csv] and the loop [run].

    Python [int] is [Z].  Python [float] is a type [F] with the operations
    the source applies to it, collected in the class [PyFloat]; it has two
    instances, IEEE binary64 (what the interpreter runs) and the rationals
    (the exact arithmetic in which a formula is read on paper). *)

From Stdlib Require Import ZArith QArith Bool List String Ascii Lia.
From Stdlib Require Import PrimFloat FloatOps SpecFloat.
From Stdlib Require Decimal DecimalString DecimalPos DecimalN DecimalZ.
Import ListNotations.

Set Implicit Arguments.

Local Open Scope Z_scope.

(** ** Exceptions and results *)

(** The exceptions that the modelled code can raise or let through. *)
Inductive exn : Type :=
| TypeError
| ValueError
| OverflowError
| KeyboardInterrupt.

(** The result of a call: a returned value or a raised exception. *)
Inductive outcome (A : Type) : Type :=
| Return (a : A)
| Raise (e : exn).

Arguments Return {A} a.
Arguments Raise {A} e.

(** ** Python floats *)

(** The float operations of the source.  [of_int] is the implicit
    int-to-float conversion of [int / float] and [float / int]; it is
    [None] where the interpreter raises [OverflowError] ("int too large to
    convert to float").  [fleb] is [<=], [fzero] the literal [0] in a
    comparison with a float, [ftruthy] the truth value of a float in a
    condition ([x != 0]).  [fdiv] is total: the source divides only by
    [1_000_000] and by a [time_delta_s] that passed the [<= 0] guard, so
    [ZeroDivisionError] is never met. *)
Class PyFloat (F : Type) : Type := {
  fsub : F -> F -> F;
  fdiv : F -> F -> F;
  fleb : F -> F -> bool;
  fzero : F;
  ftruthy : F -> bool;
  of_int : Z -> option F
}.

(** Correctly rounded conversion of an integer to binary64 (round to
    nearest, ties to even), as [float(int)] does. *)
Definition Z2float (z : Z) : float :=
  SF2Prim (binary_normalize prec emax z 0 false).

Definition float_of_int (z : Z) : option float :=
  let x := Z2float z in
  if PrimFloat.is_infinity x then None else Some x.

#[export] Instance PyFloat_binary64 : PyFloat float := {
  fsub := PrimFloat.sub;
  fdiv := PrimFloat.div;
  fleb := PrimFloat.leb;
  fzero := PrimFloat.zero;
  ftruthy := fun x => negb (PrimFloat.eqb x PrimFloat.zero);
  of_int := float_of_int
}.

#[export] Instance PyFloat_exact : PyFloat Q := {
  fsub := Qminus;
  fdiv := Qdiv;
  fleb := Qle_bool;
  fzero := 0%Q;
  ftruthy := fun x => negb (Qeq_bool x 0%Q);
  of_int := fun z => Some (inject_Z z)
}.

(** ** The energy-counter text *)

(** [read_rapl_energy] parses [f.read().strip()] with [int].  The content
    is modelled as ASCII text, which is what the kernel attribute holds;
    the interpreter's treatment of non-ASCII digits and spaces and its
    limit on the number of digits are outside the model. *)

(** Python's ASCII whitespace: tab, newline, vertical tab, form feed,
    carriage return, the four separators 28 to 31, and space. *)
Definition is_space (c : ascii) : bool :=
  let n := nat_of_ascii c in
  ((9 <=? n) && (n <=? 13) || (28 <=? n) && (n <=? 32))%nat.

Definition is_digit (c : ascii) : bool :=
  let n := nat_of_ascii c in
  ((48 <=? n) && (n <=? 57))%nat.

Definition digit_value (c : ascii) : Z := Z.of_nat (nat_of_ascii c) - 48.

Fixpoint lstrip (l : list ascii) : list ascii :=
  match l with
  | c :: rest => if is_space c then lstrip rest else l
  | [] => []
  end.

(** [str.strip()]. *)
Definition strip (l : list ascii) : list ascii :=
  rev (lstrip (rev (lstrip l))).

(** The digits of a base-10 literal, most significant first: at least one
    digit, and single underscores only between two digits. *)
Fixpoint digits_value (acc : Z) (l : list ascii) : option Z :=
  match l with
  | [] => None
  | c :: rest =>
      if is_digit c then
        let acc := 10 * acc + digit_value c in
        match rest with
        | [] => Some acc
        | c' :: rest' =>
            if Ascii.eqb c' "_" then digits_value acc rest'
            else digits_value acc rest
        end
      else None
  end.

(** [int(text)] for a [str] in base 10: surrounding whitespace is
    ignored, one sign is allowed, [None] stands for [ValueError]. *)
Definition py_int (text : list ascii) : option Z :=
  match strip text with
  | c :: ds =>
      if Ascii.eqb c "-" then option_map Z.opp (digits_value 0 ds)
      else if Ascii.eqb c "+" then digits_value 0 ds
      else digits_value 0 (c :: ds)
  | [] => None
  end.



(** What opening and reading the energy file gives: its content, or an
    error ([FileNotFoundError], [PermissionError], another [OSError]). *)
Inductive file_read : Type :=
| FileContent (text : string)
| FileError.

(** [PowerMonitor.read_rapl_energy()]: every [Exception] becomes [None]. *)
Definition read_rapl_energy (file : file_read) : option Z :=
  match file with
  | FileContent text => py_int (list_ascii_of_string (text))
  | FileError => None
  end.

(** ** The monitor object *)

Section Monitor.

Context {F : Type} `{PyFloat F}.

(** One sample, the dict built by [take_measurement]. *)
Record Measurement : Type := {
  timestamp : string;
  timestamp_unix : F;
  ipmi_watts : option F;
  rapl_pkg_watts : option F;
  rapl_energy_uj : option Z
}.

(** The fields of [self] that the modelled methods read or write.
    [output_file] is [None] or a path; [prev_rapl_energy] and
    [prev_rapl_time] are the two separate attributes of the source. *)
Record PowerMonitor : Type := {
  interval : F;
  output_file : option string;
  verbose : bool;
  running : bool;
  measurements : list Measurement;
  prev_rapl_energy : option Z;
  prev_rapl_time : option F
}.

(** [PowerMonitor.__init__], the attributes it sets. *)
Definition init (interval : F) (output_file : option string) (verbose : bool)
  : PowerMonitor :=
  {| interval := interval;
     output_file := output_file;
     verbose := verbose;
     running := false;
     measurements := [];
     prev_rapl_energy := None;
     prev_rapl_time := None |}.

Definition set_prev (self : PowerMonitor) (e : option Z) (t : option F)
  : PowerMonitor :=
  {| interval := interval self;
     output_file := output_file self;
     verbose := verbose self;
     running := running self;
     measurements := measurements self;
     prev_rapl_energy := e;
     prev_rapl_time := t |}.

Definition set_prev_energy (self : PowerMonitor) (e : Z) : PowerMonitor :=
  set_prev self (Some e) (prev_rapl_time self).

Definition set_prev_time (self : PowerMonitor) (t : F) : PowerMonitor :=
  set_prev self (prev_rapl_energy self) (Some t).

(** ** The estimator *)

(** The assumed counter width, [max_counter = 2**32]. *)
Definition max_counter : Z := 2 ^ 32.

(** The implicit conversion of an [int] operand of a float division. *)
Definition int_to_float (z : Z) : outcome F :=
  match of_int z with
  | Some x => Return x
  | None => Raise OverflowError
  end.

(** [power_w = (energy_delta_uj / time_delta_s) / 1_000_000]. *)
Definition watts (energy_delta_uj : Z) (time_delta_s : F) : outcome F :=
  match int_to_float energy_delta_uj with
  | Raise e => Raise e
  | Return d =>
      match int_to_float 1000000 with
      | Raise e => Raise e
      | Return m => Return (fdiv (fdiv d time_delta_s) m)
      end
  end.

(** [PowerMonitor.calculate_rapl_power(energy_uj, timestamp)]: the result
    and the object after the call.  With [prev_rapl_energy] set and
    [prev_rapl_time] unset, [timestamp - None] raises before anything is
    stored. *)
Definition calculate_rapl_power (self : PowerMonitor) (energy_uj : Z)
  (timestamp : F) : outcome (option F) * PowerMonitor :=
  match prev_rapl_energy self with
  | None =>
      let self := set_prev_energy self energy_uj in
      let self := set_prev_time self timestamp in
      (Return None, self)
  | Some prev_energy =>
      let energy_delta_uj := energy_uj - prev_energy in
      match prev_rapl_time self with
      | None => (Raise TypeError, self)
      | Some prev_time =>
          let time_delta_s := fsub timestamp prev_time in
          let energy_delta_uj :=
            if energy_delta_uj <? 0 then energy_delta_uj + max_counter
            else energy_delta_uj in
          let self := set_prev_energy self energy_uj in
          let self := set_prev_time self timestamp in
          if fleb time_delta_s fzero then (Return None, self)
          else
            match watts energy_delta_uj time_delta_s with
            | Raise e => (Raise e, self)
            | Return power_w => (Return (Some power_w), self)
            end
      end
  end.

(** The estimator state is consistent when both attributes are set or
    both are unset. *)
Definition both_or_neither (self : PowerMonitor) : Prop :=
  (prev_rapl_energy self = None /\ prev_rapl_time self = None) \/
  (exists e t, prev_rapl_energy self = Some e /\ prev_rapl_time self = Some t).

(** A sequence of estimator calls on one object: the object afterwards. *)
Fixpoint estimator_calls (self : PowerMonitor) (calls : list (Z * F))
  : PowerMonitor :=
  match calls with
  | [] => self
  | (e, t) :: rest => estimator_calls (snd (calculate_rapl_power self e t)) rest
  end.

(** ** One sampling round *)

(** What the world supplies to one call of [take_measurement]: the reading
    of [time.time()] and its rendering in local time, the result of
    [read_ipmi_power()] (a wrapper of an external command, modelled by
    what it returns), and the outcome of opening the energy file.
    [collect_end] is the instant at which the reads of the round were
    over; the source never looks at the clock there, and the field only
    serves to say what the specification states about the time spent
    collecting. *)
Record Round : Type := {
  clock : F;
  clock_text : string;
  ipmi : option F;
  rapl : file_read;
  collect_end : F
}.

(** [PowerMonitor.take_measurement()]. *)
Definition take_measurement (self : PowerMonitor) (r : Round)
  : outcome Measurement * PowerMonitor :=
  let timestamp := clock r in
  let timestamp_str := clock_text r in
  let ipmi_power := ipmi r in
  let rapl_energy := read_rapl_energy (rapl r) in
  let measurement rapl_power :=
    {| timestamp := timestamp_str;
       timestamp_unix := timestamp;
       ipmi_watts := ipmi_power;
       rapl_pkg_watts := rapl_power;
       rapl_energy_uj := rapl_energy |} in
  match rapl_energy with
  | None => (Return (measurement None), self)
  | Some energy =>
      match calculate_rapl_power self energy timestamp with
      | (Raise e, self) => (Raise e, self)
      | (Return rapl_power, self) => (Return (measurement rapl_power), self)
      end
  end.

(** ** The CSV sink *)

(** A cell of the written file.  [csv.DictWriter] writes [None] as the
    empty string, a [str] as it is, and any other value [x] as [str(x)];
    [FloatCell x] and [IntCell z] stand for those texts. *)
Inductive cell : Type :=
| Text (s : string)
| FloatCell (x : F)
| IntCell (z : Z).

Definition cell_of_float (x : option F) : cell :=
  match x with
  | Some x => FloatCell x
  | None => Text ""
  end.

Definition cell_of_int (z : option Z) : cell :=
  match z with
  | Some z => IntCell z
  | None => Text ""
  end.

Definition fieldnames : list string :=
  ["timestamp"; "timestamp_unix"; "ipmi_watts"; "rapl_pkg_watts";
   "rapl_energy_uj"]%string.

(** The row [writer.writerows] writes for one sample, in the order of
    [fieldnames]. *)
Definition csv_row (m : Measurement) : list cell :=
  [Text (timestamp m); FloatCell (timestamp_unix m);
   cell_of_float (ipmi_watts m); cell_of_float (rapl_pkg_watts m);
   cell_of_int (rapl_energy_uj m)].

(** A file as written: its path and its rows, the header first. *)
Record csv_file : Type := {
  path : string;
  rows : list (list cell)
}.

(** The truth value of [self.output_file]: set, and not the empty string. *)
Definition output_path (self : PowerMonitor) : option string :=
  match output_file self with
  | Some EmptyString => None
  | Some p => Some p
  | None => None
  end.

(** [PowerMonitor.save_to_csv()]: the file it writes, if it writes one.
    A failure of the write itself is outside the model. *)
Definition save_to_csv (self : PowerMonitor) : option csv_file :=
  match output_path self, measurements self with
  | None, _ => None
  | Some _, [] => None
  | Some p, ms =>
      Some {| path := p; rows := map Text fieldnames :: map csv_row ms |}
  end.

(** ** The monitoring loop *)

(** Where in an iteration Ctrl+C arrives, if it does: while the sample is
    being collected (before it is appended), or after it was appended,
    while the loop prints or sleeps. *)
Inductive sigint : Type :=
| NoSigint
| SigintCollecting
| SigintSleeping.

(** What the world supplies to one iteration of the loop: the clock as the
    duration check reads it (read only when a duration is in force), the
    sampling round, and the interruption. *)
Record Tick : Type := {
  check_clock : F;
  round : Round;
  interruption : sigint
}.

(** The script of a run: the clock at the start of [run], the priming
    round, whether Ctrl+C arrives during it, and the iterations. *)
Record World : Type := {
  start_clock : F;
  priming : Round;
  priming_interrupted : bool;
  ticks : list Tick
}.

(** How the loop was left.  [ScriptEnd] is the end of the script with the
    loop still going: the run has not stopped. *)
Inductive stop : Type :=
| DurationElapsed
| NotRunning
| Interrupted
| Crashed (e : exn)
| ScriptEnd.

Definition set_running (self : PowerMonitor) (b : bool) : PowerMonitor :=
  {| interval := interval self;
     output_file := output_file self;
     verbose := verbose self;
     running := b;
     measurements := measurements self;
     prev_rapl_energy := prev_rapl_energy self;
     prev_rapl_time := prev_rapl_time self |}.

(** [self.measurements.append(measurement)]. *)
Definition append (self : PowerMonitor) (m : Measurement) : PowerMonitor :=
  {| interval := interval self;
     output_file := output_file self;
     verbose := verbose self;
     running := running self;
     measurements := measurements self ++ [m];
     prev_rapl_energy := prev_rapl_energy self;
     prev_rapl_time := prev_rapl_time self |}.

(** [duration and (time.time() - start_time) >= duration]. *)
Definition duration_elapsed (duration : option F) (start_time now : F)
  : bool :=
  match duration with
  | None => false
  | Some d => ftruthy d && fleb d (fsub now start_time)
  end.

(** [time.sleep(secs)] accepts [secs] when [0 <= secs] and raises
    [ValueError] otherwise, for a negative value and for a NaN.  The
    [OverflowError] for an interval beyond the range of the platform's
    timer is outside the model. *)
Definition sleep_accepts (secs : F) : bool := fleb fzero secs.

(** The state of the loop: the object, [measurement_count], and the
    sleeps requested so far, oldest first. *)
Record LoopState : Type := {
  self_of : PowerMonitor;
  measurement_count : nat;
  sleeps : list F
}.

(** The body of [while self.running], iterated over the script. *)
Fixpoint loop (duration : option F) (start_time : F) (st : LoopState)
  (script : list Tick) : LoopState * stop :=
  match script with
  | [] => (st, if running (self_of st) then ScriptEnd else NotRunning)
  | t :: script =>
      if negb (running (self_of st)) then (st, NotRunning)
      else if duration_elapsed duration start_time (check_clock t)
      then (st, DurationElapsed)
      else
        match interruption t with
        | SigintCollecting => (st, Interrupted)
        | i =>
            match take_measurement (self_of st) (round t) with
            | (Raise e, self) =>
                ({| self_of := self;
                    measurement_count := measurement_count st;
                    sleeps := sleeps st |}, Crashed e)
            | (Return measurement, self) =>
                let self := append self measurement in
                let count := S (measurement_count st) in
                let st := {| self_of := self;
                             measurement_count := count;
                             sleeps := sleeps st |} in
                match i with
                | SigintSleeping => (st, Interrupted)
                | _ =>
                    if sleep_accepts (interval self) then
                      loop duration start_time
                        {| self_of := self;
                           measurement_count := count;
                           sleeps := sleeps st ++ [interval self] |}
                        script
                    else (st, Crashed ValueError)
                end
            end
        end
  end.

(** What a run leaves behind: the object, the count it prints, the sleeps
    it requested, how it stopped, and the files it wrote, in order. *)
Record RunResult : Type := {
  final : PowerMonitor;
  count : nat;
  slept : list F;
  stopped : stop;
  written : list csv_file
}.

(** The [finally] clause: [if self.output_file: self.save_to_csv()]. *)
Definition finalize (self : PowerMonitor) : list csv_file :=
  match output_path self with
  | None => []
  | Some _ =>
      match save_to_csv self with
      | Some f => [f]
      | None => []
      end
  end.

(** [PowerMonitor.run(duration)].  The priming round is outside the [try]:
    an exception there leaves [run] at once.  The console output is not
    modelled. *)
Definition run (self : PowerMonitor) (duration : option F) (w : World)
  : RunResult :=
  let self := set_running self true in
  let start_time := start_clock w in
  let count0 := 0%nat in
  let crashed self e :=
    {| final := self; count := count0; slept := [];
       stopped := Crashed e; written := [] |} in
  if priming_interrupted w then crashed self KeyboardInterrupt
  else
    match take_measurement self (priming w) with
    | (Raise e, self) => crashed self e
    | (Return initial, self) =>
        let (st, why) :=
          loop duration start_time
            {| self_of := self; measurement_count := count0;
               sleeps := [] |} (ticks w) in
        match why with
        | ScriptEnd =>
            {| final := self_of st; count := measurement_count st;
               slept := sleeps st; stopped := ScriptEnd; written := [] |}
        | _ =>
            let self := set_running (self_of st) false in
            {| final := self; count := measurement_count st;
               slept := sleeps st; stopped := why;
               written := finalize self |}
        end
    end.

(** ** Auxiliary notions for the statements *)

(** The energy delta after the rollover correction. *)
Definition corrected_delta (delta : Z) : Z :=
  if delta <? 0 then delta + max_counter else delta.

(** The clock readings that stamp the samples of the first [n]
    iterations of a script. *)
Definition stamps (n : nat) (script : list Tick) : list F :=
  map (fun t => clock (round t)) (firstn n script).

(** What one execution of the loop over [script] did, from state [st] to
    state [st'], leaving with [why]: [n] samples [ms] were appended, one
    for each of the first [n] iterations, [k] sleeps of the interval were
    requested, the duration check failed before each of the [n] samples,
    and the way out is accounted for. *)
Definition loop_post (duration : option F) (start_time : F)
  (st : LoopState) (script : list Tick) (st' : LoopState) (why : stop)
  (n k : nat) (ms : list Measurement) : Prop :=
  measurement_count st' = (measurement_count st + n)%nat /\
  measurements (self_of st') = measurements (self_of st) ++ ms /\
  List.length ms = n /\
  map timestamp_unix ms = stamps n script /\
  interval (self_of st') = interval (self_of st) /\
  output_file (self_of st') = output_file (self_of st) /\
  running (self_of st') = true /\
  sleeps st' = sleeps st ++ repeat (interval (self_of st)) k /\
  (k = n \/ S k = n) /\
  (k <> 0%nat -> sleep_accepts (interval (self_of st)) = true) /\
  (forall (i : nat) (t : Tick),
     (i < n)%nat -> nth_error script i = Some t ->
     duration_elapsed duration start_time (check_clock t) = false) /\
  (why = DurationElapsed ->
   exists t : Tick,
     nth_error script n = Some t /\
     duration_elapsed duration start_time (check_clock t) = true) /\
  (why = ScriptEnd -> n = List.length script /\ k = n) /\
  (why = Interrupted ->
   exists t : Tick, In t script /\ interruption t <> NoSigint) /\
  why <> NotRunning.

(** ** What the specification says, for comparison *)

(** The sleep as the specification words it: the interval minus the time
    spent collecting, floored at zero. *)
Definition spec_sleep (interval : F) (r : Round) : F :=
  let remaining := fsub interval (fsub (collect_end r) (clock r)) in
  if fleb remaining fzero then fzero else remaining.

(** The bound check as the specification words it: the elapsed time is
    measured from the start of the Sampling state, which is the end of the
    priming round. *)
Definition spec_duration_elapsed (duration : option F) (w : World) (now : F)
  : bool :=
  duration_elapsed duration (collect_end (priming w)) now.

End Monitor.

(** ** Text helpers of the readers *)

(** The decimal text of an integer, as [str] prints it: a minus sign for
    a negative number, then the digits with no leading zero. *)
Definition decimal (z : Z) : list ascii :=
  list_ascii_of_string (DecimalString.NilEmpty.string_of_int (Z.to_int z)).

(** The characters of a sequence of decimal digits. *)
Definition uint_chars (d : Decimal.uint) : list ascii :=
  list_ascii_of_string (DecimalString.NilEmpty.string_of_uint d).

(** [text.split(sep)] for a one-character separator: the pieces between
    the separators, at least one. *)
Fixpoint split_on (sep : ascii) (l : list ascii) : list (list ascii) :=
  match l with
  | [] => [[]]
  | c :: rest =>
      if Ascii.eqb c sep then [] :: split_on sep rest
      else
        match split_on sep rest with
        | piece :: pieces => (c :: piece) :: pieces
        | [] => [[c]]
        end
  end.

Fixpoint starts_with (prefix l : list ascii) : bool :=
  match prefix, l with
  | [], _ => true
  | _ :: _, [] => false
  | p :: prefix, c :: l => Ascii.eqb p c && starts_with prefix l
  end.

(** [needle in text]. *)
Fixpoint contains (needle l : list ascii) : bool :=
  starts_with needle l ||
  match l with
  | [] => false
  | _ :: rest => contains needle rest
  end.

(** [text.split()]: the maximal runs of characters that are not
    whitespace; [current] is the run being read, last character first. *)
Fixpoint words_from (current l : list ascii) : list (list ascii) :=
  match l with
  | [] =>
      match current with
      | [] => []
      | _ :: _ => [rev current]
      end
  | c :: rest =>
      if is_space c then
        match current with
        | [] => words_from [] rest
        | _ :: _ => rev current :: words_from [] rest
        end
      else words_from (c :: current) rest
  end.

Definition words (l : list ascii) : list (list ascii) := words_from [] l.

(** The text whose lines are [lines]: a newline between one and the
    next. *)
Fixpoint join_lines (lines : list (list ascii)) : list ascii :=
  match lines with
  | [] => []
  | [line] => line
  | line :: lines => line ++ "010"%char :: join_lines lines
  end.

(** ** The out-of-band reader *)

(** How the call of [ipmitool dcmi power reading] ends: the command
    exits, or [subprocess.run] raises [TimeoutExpired] after five
    seconds, or it raises another exception (the command cannot be
    started). *)
Inductive ipmitool : Type :=
| Exited (returncode : Z) (stdout stderr : string)
| TimedOut
| NotStarted.

Definition power_marker : list ascii :=
  list_ascii_of_string "Instantaneous power reading".

Section Out_of_band.

Context {F : Type}.

(** [float(text)] for a [str]; [None] stands for [ValueError].  It is the
    interpreter's, and is taken as given. *)
Variable py_float : list ascii -> option F.

(** The [for line in result.stdout.split('\n')] loop.  The first line
    that holds the marker and a colon decides: the first word after the
    first colon is converted, and a missing word ([IndexError]) or a word
    that is no number ([ValueError]) is caught and gives [None].  [None]
    is also the result when the loop runs out of lines. *)
Fixpoint scan_lines (lines : list (list ascii)) : option F :=
  match lines with
  | [] => None
  | line :: lines =>
      if contains power_marker line then
        match split_on ":" line with
        | _ :: part :: _ =>
            match words (strip part) with
            | power_str :: _ => py_float power_str
            | [] => None
            end
        | _ => scan_lines lines
        end
      else scan_lines lines
  end.

(** [PowerMonitor.read_ipmi_power()], warnings on stderr aside. *)
Definition read_ipmi_power (result : ipmitool) : option F :=
  match result with
  | Exited returncode stdout _ =>
      if negb (returncode =? 0) then None
      else scan_lines (split_on "010" (list_ascii_of_string stdout))
  | TimedOut => None
  | NotStarted => None
  end.

End Out_of_band.

(** ** Interface validation *)

(** How [which ipmitool] ends: with an exit status, or with an exception
    of [subprocess.run], of which the message is kept. *)
Inductive which_result : Type :=
| WhichExited (returncode : Z)
| WhichRaised (message : string).

(** How opening and reading the energy file ends. *)
Inductive open_result : Type :=
| OpenOk
| OpenPermissionError
| OpenOtherError.

(** What [_check_interfaces] observes.  The file is taken not to appear
    or vanish between the two calls of [exists()]. *)
Record Interfaces : Type := {
  which_ipmitool : which_result;
  rapl_exists : bool;
  rapl_open : open_result
}.

(** How [_check_interfaces] ends: it returns, or it calls [sys.exit],
    or the error of the read, which only [PermissionError] is caught of,
    leaves it. *)
Inductive validation : Type :=
| Validated
| SysExit (code : Z) (errors : list string)
| ReadErrorRaised.

Definition rapl_energy_file : string :=
  "/sys/class/powercap/intel-rapl/intel-rapl:0/energy_uj".

(** [if errors: ... sys.exit(1)]. *)
Definition exit_on_errors (errors : list string) : validation :=
  match errors with
  | [] => Validated
  | _ :: _ => SysExit 1 errors
  end.

(** [PowerMonitor._check_interfaces()], the report on stderr aside. *)
Definition check_interfaces (env : Interfaces) : validation :=
  let errors := [] in
  let errors :=
    match which_ipmitool env with
    | WhichExited returncode =>
        if negb (returncode =? 0)
        then errors ++ ["ipmitool not found in PATH"%string]
        else errors
    | WhichRaised e =>
        errors ++ [("Error checking ipmitool: " ++ e)%string]
    end in
  let errors :=
    if negb (rapl_exists env)
    then errors ++ [("RAPL interface not found at " ++ rapl_energy_file)%string]
    else errors in
  if rapl_exists env then
    match rapl_open env with
    | OpenOk => exit_on_errors errors
    | OpenPermissionError =>
        exit_on_errors
          (errors ++
           ["Permission denied reading RAPL (try running with sudo)"%string])
    | OpenOtherError => ReadErrorRaised
    end
  else exit_on_errors errors.

(** ** The loop as a relation *)

Section Loop_relation.

Context {F : Type} `{PyFloat F}.

(** The state once a sample is appended and counted. *)
Definition sampled (st : @LoopState F) (self : @PowerMonitor F)
  (m : @Measurement F) : @LoopState F :=
  {| self_of := append self m;
     measurement_count := S (measurement_count st);
     sleeps := sleeps st |}.

(** The state once the sleep after it is over. *)
Definition rested (st : @LoopState F) (self : @PowerMonitor F)
  (m : @Measurement F) : @LoopState F :=
  {| self_of := append self m;
     measurement_count := S (measurement_count st);
     sleeps := sleeps st ++ [interval (append self m)] |}.

(** The ways through [while self.running], one constructor for each way
    an iteration can go. *)
Inductive loops (duration : option F) (start_time : F)
  : LoopState -> list Tick -> LoopState -> stop -> Prop :=
| loops_script_end (st : LoopState) :
    running (self_of st) = true ->
    loops duration start_time st [] st ScriptEnd
| loops_not_running (st : LoopState) (script : list Tick) :
    running (self_of st) = false ->
    loops duration start_time st script st NotRunning
| loops_elapsed (st : LoopState) (t : Tick) (script : list Tick) :
    running (self_of st) = true ->
    duration_elapsed duration start_time (check_clock t) = true ->
    loops duration start_time st (t :: script) st DurationElapsed
| loops_sigint_collecting (st : LoopState) (t : Tick) (script : list Tick) :
    running (self_of st) = true ->
    duration_elapsed duration start_time (check_clock t) = false ->
    interruption t = SigintCollecting ->
    loops duration start_time st (t :: script) st Interrupted
| loops_raised (st : LoopState) (t : Tick) (script : list Tick)
    (e : exn) (self : PowerMonitor) :
    running (self_of st) = true ->
    duration_elapsed duration start_time (check_clock t) = false ->
    interruption t <> SigintCollecting ->
    take_measurement (self_of st) (round t) = (Raise e, self) ->
    loops duration start_time st (t :: script)
      {| self_of := self; measurement_count := measurement_count st;
         sleeps := sleeps st |} (Crashed e)
| loops_sigint_sleeping (st : LoopState) (t : Tick) (script : list Tick)
    (m : Measurement) (self : PowerMonitor) :
    running (self_of st) = true ->
    duration_elapsed duration start_time (check_clock t) = false ->
    interruption t = SigintSleeping ->
    take_measurement (self_of st) (round t) = (Return m, self) ->
    loops duration start_time st (t :: script) (sampled st self m) Interrupted
| loops_sleep_refused (st : LoopState) (t : Tick) (script : list Tick)
    (m : Measurement) (self : PowerMonitor) :
    running (self_of st) = true ->
    duration_elapsed duration start_time (check_clock t) = false ->
    interruption t = NoSigint ->
    take_measurement (self_of st) (round t) = (Return m, self) ->
    sleep_accepts (interval (append self m)) = false ->
    loops duration start_time st (t :: script) (sampled st self m)
      (Crashed ValueError)
| loops_next (st : LoopState) (t : Tick) (script : list Tick)
    (m : Measurement) (self : PowerMonitor)
    (st' : LoopState) (why : stop) :
    running (self_of st) = true ->
    duration_elapsed duration start_time (check_clock t) = false ->
    interruption t = NoSigint ->
    take_measurement (self_of st) (round t) = (Return m, self) ->
    sleep_accepts (interval (append self m)) = true ->
    loops duration start_time (rested st self m) script st' why ->
    loops duration start_time st (t :: script) st' why.

(** A sample reflects a round when it carries the round's clock reading
    and its text, the out-of-band power as it was read, and the energy as
    it was read. *)
Definition reflects (m : @Measurement F) (r : @Round F) : Prop :=
  timestamp m = clock_text r /\
  timestamp_unix m = clock r /\
  ipmi_watts m = ipmi r /\
  rapl_energy_uj m = read_rapl_energy (rapl r).

(** The sample stored by the estimator, as a pair. *)
Definition stored (self : @PowerMonitor F) : option Z * option F :=
  (prev_rapl_energy self, prev_rapl_time self).

End Loop_relation.

(** ** Concrete scripts *)

(** Scripts over IEEE binary64, with times that are exact in binary. *)

(** A round stamped [t] whose reads are over at [done]: the management
    controller reports 100 W and the energy file holds [text]. *)
Definition reading (t : float) (text : string) (done : float)
  : @Round float :=
  {| clock := t;
     clock_text := "2024-01-01 00:00:00.000";
     ipmi := Some 100%float;
     rapl := FileContent text;
     collect_end := done |}.

Definition tick_at (t : float) (text : string) (done : float)
  : @Tick float :=
  {| check_clock := t; round := reading t text done;
     interruption := NoSigint |}.

(** Collecting takes a quarter of a second in every round. *)
Definition steady_world : @World float :=
  {| start_clock := 0%float;
     priming := reading 0%float "1000000" 0.25%float;
     priming_interrupted := false;
     ticks := [tick_at 0.25%float "2000000" 0.5%float;
               tick_at 1.5%float "4000000" 1.75%float] |}.

(** The priming round takes ten seconds, as when the management
    controller is slow to answer. *)
Definition slow_priming_world : @World float :=
  {| start_clock := 0%float;
     priming := reading 0%float "1000000" 10%float;
     priming_interrupted := false;
     ticks := [tick_at 10%float "2000000" 10.25%float;
               tick_at 11.25%float "4000000" 11.5%float] |}.

(** A monitor with a one-second interval, writing to [out.csv]. *)
Definition monitor : @PowerMonitor float :=
  init 1%float (Some "out.csv"%string) true.





(** A world whose priming round cannot read the energy file. *)
Definition unprimed_world : @World float :=
  {| start_clock := 0%float;
     priming :=
       {| clock := 0%float; clock_text := ""; ipmi := None;
          rapl := FileError; collect_end := 0%float |};
     priming_interrupted := false;
     ticks := [tick_at 1%float "2000000" 1%float;
               tick_at 2%float "4000000" 2%float] |}.

(** A stand-in for [float] in the examples: it reads the integer
    literals, as [float] does, and nothing else. *)
Definition float_of_literal (text : list ascii) : option float :=
  option_map Z2float (py_int text).

(** * Properties *)

(** ** The estimator *)

Section Estimator_facts.

Context {F : Type} `{PyFloat F}.

Lemma both_or_neither_init (i : F) (o : option string) (v : bool) :
  both_or_neither (init i o v).
Proof. left; split; reflexivity. Qed.

(** A call on a consistent object stores the sample it was given and
    leaves the other attributes alone. *)
Lemma calculate_stores (self : PowerMonitor) (e : Z) (t : F) :
  both_or_neither self ->
  let self' := snd (calculate_rapl_power self e t) in
  prev_rapl_energy self' = Some e /\ prev_rapl_time self' = Some t /\
  interval self' = interval self /\ output_file self' = output_file self /\
  running self' = running self /\ measurements self' = measurements self.
Proof.
  intros [[He Ht] | (e0 & t0 & He & Ht)]; unfold calculate_rapl_power;
    rewrite He, ?Ht; cbn.
  - repeat split.
  - destruct (fleb (fsub t t0) fzero); [cbn; repeat split |].
    destruct (watts _ _); cbn; repeat split.
Qed.

(** A call on an object that holds the sample [(e1, t1)], when the time
    delta passes the guard. *)
Lemma calculate_next (self : PowerMonitor) (e1 e2 : Z) (t1 t2 : F) :
  prev_rapl_energy self = Some e1 ->
  prev_rapl_time self = Some t1 ->
  fleb (fsub t2 t1) fzero = false ->
  fst (calculate_rapl_power self e2 t2) =
    match watts (corrected_delta (e2 - e1)) (fsub t2 t1) with
    | Raise e => Raise e
    | Return power_w => Return (Some power_w)
    end.
Proof.
  intros He Ht Hd. unfold calculate_rapl_power, corrected_delta.
  rewrite He, Ht, Hd. destruct (watts _ _); reflexivity.
Qed.

Lemma watts_value (delta : Z) (dt d m : F) :
  of_int delta = Some d -> of_int 1000000 = Some m ->
  watts delta dt = Return (fdiv (fdiv d dt) m).
Proof.
  intros Hd Hm. unfold watts, int_to_float. rewrite Hd, Hm. reflexivity.
Qed.

(** The second of two consecutive calls, in terms of the corrected delta;
    it holds in every arithmetic, IEEE binary64 included. *)
Lemma second_call_formula (self : PowerMonitor) (e1 e2 : Z) (t1 t2 d m : F) :
  both_or_neither self ->
  fleb (fsub t2 t1) fzero = false ->
  of_int (corrected_delta (e2 - e1)) = Some d ->
  of_int 1000000 = Some m ->
  fst (calculate_rapl_power (snd (calculate_rapl_power self e1 t1)) e2 t2) =
    Return (Some (fdiv (fdiv d (fsub t2 t1)) m)).
Proof.
  intros Hinv Hdt Hd Hm.
  destruct (calculate_stores e1 t1 Hinv) as (He & Ht & _).
  rewrite calculate_next with (e1 := e1) (t1 := t1) by assumption.
  rewrite watts_value with (d := d) (m := m) by assumption.
  reflexivity.
Qed.

(** C1. Two consecutive estimator calls with a non-decreasing energy and a
    time delta that is positive (strictly increasing timestamps): the
    second call returns [(delta_energy / delta_time) / 1_000_000], where
    [delta_energy] is the new energy minus the stored one, converted to a
    float, and [delta_time] the new timestamp minus the stored one. *)
Theorem power_of_increasing_energy
  (self : PowerMonitor) (e1 e2 : Z) (t1 t2 d m : F) :
  both_or_neither self ->
  e1 <= e2 ->
  fleb (fsub t2 t1) fzero = false ->
  of_int (e2 - e1) = Some d ->
  of_int 1000000 = Some m ->
  fst (calculate_rapl_power (snd (calculate_rapl_power self e1 t1)) e2 t2) =
    Return (Some (fdiv (fdiv d (fsub t2 t1)) m)).
Proof.
  intros Hinv Hle Hdt Hd Hm.
  apply second_call_formula; try assumption.
  unfold corrected_delta.
  destruct (Z.ltb_spec (e2 - e1) 0) as [Hneg | _]; [lia | exact Hd].
Qed.

(** C6. A call after the first whose time delta is zero or negative
    returns no power value, and the object is still advanced to the new
    energy and timestamp. *)
Theorem no_power_without_elapsed_time
  (self : PowerMonitor) (e1 e2 : Z) (t1 t2 : F) :
  prev_rapl_energy self = Some e1 ->
  prev_rapl_time self = Some t1 ->
  fleb (fsub t2 t1) fzero = true ->
  let (result, self') := calculate_rapl_power self e2 t2 in
  result = Return None /\
  prev_rapl_energy self' = Some e2 /\ prev_rapl_time self' = Some t2.
Proof.
  intros He Ht Hdt. unfold calculate_rapl_power.
  rewrite He, Ht, Hdt. cbn. repeat split.
Qed.

Lemma both_or_neither_step (self : PowerMonitor) (e : Z) (t : F) :
  both_or_neither self ->
  both_or_neither (snd (calculate_rapl_power self e t)).
Proof.
  intros Hinv. destruct (calculate_stores e t Hinv) as (He & Ht & _).
  right. exists e, t. split; assumption.
Qed.

(** C8. After every estimator call on an object made by [__init__], the
    stored energy and the stored timestamp are both set or both unset. *)
Theorem previous_sample_is_whole
  (i : F) (o : option string) (v : bool) (calls : list (Z * F)) :
  both_or_neither (estimator_calls (init i o v) calls).
Proof.
  generalize (init i o v), (both_or_neither_init i o v).
  induction calls as [| [e t] rest IH]; intros self Hinv; cbn.
  - exact Hinv.
  - apply IH, both_or_neither_step, Hinv.
Qed.

End Estimator_facts.

(** ** The estimator in exact arithmetic *)

Section Exact_facts.

Local Open Scope Q_scope.

Lemma Qle_bool_false (x y : Q) : y < x -> Qle_bool x y = false.
Proof.
  intros Hlt. destruct (Qle_bool x y) eqn:E; [| reflexivity].
  apply Qle_bool_iff in E. exfalso. exact (Qlt_not_le _ _ Hlt E).
Qed.



(** C1 in the words of the claim, over the rationals: strictly increasing
    timestamps and a non-decreasing energy give the quotient itself. *)
Lemma increasing_energy_over_rationals
  (self : @PowerMonitor Q) (e1 e2 : Z) (t1 t2 : Q) :
  both_or_neither self ->
  (e1 <= e2)%Z ->
  t1 < t2 ->
  fst (calculate_rapl_power (snd (calculate_rapl_power self e1 t1)) e2 t2) =
    Return (Some (inject_Z (e2 - e1) / (t2 - t1) / inject_Z 1000000)).
Proof.
  intros Hinv Hle Htime.
  assert (Hguard : fleb (fsub t2 t1) fzero = false).
  { apply Qle_bool_false. apply (proj1 (Qlt_minus_iff t1 t2)) in Htime.
    exact Htime. }
  assert (Hconv : of_int (corrected_delta (e2 - e1)) =
                  Some (inject_Z (e2 - e1))).
  { unfold corrected_delta.
    destruct (Z.ltb_spec (e2 - e1) 0); [lia | reflexivity]. }
  exact (second_call_formula e1 e2 t1 t2 Hinv Hguard Hconv eq_refl).
Qed.


End Exact_facts.

(** ** The energy-counter text *)

Section Parser_facts.

Lemma digits_value_cons (acc : Z) (c : ascii) (rest : list ascii) :
  digits_value acc (c :: rest) =
    if is_digit c then
      match rest with
      | [] => Some (10 * acc + digit_value c)
      | c' :: rest' =>
          if Ascii.eqb c' "_" then digits_value (10 * acc + digit_value c) rest'
          else digits_value (10 * acc + digit_value c) rest
      end
    else None.
Proof. reflexivity. Qed.

Lemma digit_not_underscore (c : ascii) :
  is_digit c = true -> Ascii.eqb c "_" = false.
Proof.
  intros Hc. destruct (Ascii.eqb_spec c "_"%char) as [-> | _];
    [discriminate Hc | reflexivity].
Qed.

Lemma digit_not_sign (c : ascii) :
  is_digit c = true -> Ascii.eqb c "-" = false /\ Ascii.eqb c "+" = false.
Proof.
  intros Hc. split.
  - destruct (Ascii.eqb_spec c "-"%char) as [-> | _];
      [discriminate Hc | reflexivity].
  - destruct (Ascii.eqb_spec c "+"%char) as [-> | _];
      [discriminate Hc | reflexivity].
Qed.







End Parser_facts.

(** ** Sampling rounds and the loop *)

Section Loop_facts.

Context {F : Type} `{PyFloat F}.

(** The estimator touches only the two attributes of the previous sample. *)
Lemma calculate_frame (self : PowerMonitor) (e : Z) (t : F) :
  let self' := snd (calculate_rapl_power self e t) in
  interval self' = interval self /\ output_file self' = output_file self /\
  running self' = running self /\ measurements self' = measurements self.
Proof.
  unfold calculate_rapl_power.
  destruct (prev_rapl_energy self); [| cbn; repeat split].
  destruct (prev_rapl_time self); [| cbn; repeat split].
  destruct (fleb _ _); [cbn; repeat split |].
  destruct (watts _ _); cbn; repeat split.
Qed.

Lemma take_measurement_frame (self : PowerMonitor) (r : Round) :
  let self' := snd (take_measurement self r) in
  interval self' = interval self /\ output_file self' = output_file self /\
  running self' = running self /\ measurements self' = measurements self.
Proof.
  unfold take_measurement.
  destruct (read_rapl_energy (rapl r)) as [e |]; [| cbn; repeat split].
  pose proof (calculate_frame self e (clock r)) as Hframe.
  destruct (calculate_rapl_power self e (clock r)) as [[p | x] self'];
    exact Hframe.
Qed.

Lemma take_measurement_stamp
  (self self' : PowerMonitor) (r : Round) (m : Measurement) :
  take_measurement self r = (Return m, self') -> timestamp_unix m = clock r.
Proof.
  unfold take_measurement.
  destruct (read_rapl_energy (rapl r)) as [e |].
  - destruct (calculate_rapl_power self e (clock r)) as [[p | x] self1];
      intros Heq; [| discriminate Heq].
    injection Heq as <- _. reflexivity.
  - intros Heq. injection Heq as <- _. reflexivity.
Qed.

(** C9. On a round whose energy read fails, the sample carries no energy
    and no power, and the object is left as it was: the estimator was not
    called.  The next round that reads an energy [e3 >= e1] at a time
    [t3] past the stored [t1] then reports the power over the whole
    interval since the stored sample, [(e3 - e1) / (t3 - t1) / 1_000_000]. *)
Theorem failed_read_keeps_previous_sample
  (self : PowerMonitor) (r2 r3 : Round) (e1 e3 : Z) (t1 d m : F) :
  prev_rapl_energy self = Some e1 ->
  prev_rapl_time self = Some t1 ->
  read_rapl_energy (rapl r2) = None ->
  read_rapl_energy (rapl r3) = Some e3 ->
  e1 <= e3 ->
  fleb (fsub (clock r3) t1) fzero = false ->
  of_int (e3 - e1) = Some d ->
  of_int 1000000 = Some m ->
  exists m2 m3 : Measurement,
    take_measurement self r2 = (Return m2, self) /\
    rapl_energy_uj m2 = None /\ rapl_pkg_watts m2 = None /\
    fst (take_measurement (snd (take_measurement self r2)) r3) = Return m3 /\
    rapl_pkg_watts m3 = Some (fdiv (fdiv d (fsub (clock r3) t1)) m).
Proof.
  intros He Ht Hfail Hread Hle Hdt Hd Hm.
  assert (Hr2 : take_measurement self r2 =
                (Return {| timestamp := clock_text r2;
                           timestamp_unix := clock r2;
                           ipmi_watts := ipmi r2;
                           rapl_pkg_watts := None;
                           rapl_energy_uj := None |}, self)).
  { unfold take_measurement. rewrite Hfail. reflexivity. }
  pose proof (calculate_next self e3 (clock r3) He Ht Hdt) as Hnext.
  assert (Hcorr : corrected_delta (e3 - e1) = e3 - e1).
  { unfold corrected_delta. destruct (Z.ltb_spec (e3 - e1) 0); lia. }
  rewrite Hcorr, watts_value with (d := d) (m := m) in Hnext by assumption.
  eexists. eexists. split; [exact Hr2 |].
  split; [reflexivity |]. split; [reflexivity |].
  rewrite Hr2. cbn [snd]. unfold take_measurement. rewrite Hread.
  destruct (calculate_rapl_power self e3 (clock r3)) as [result self'].
  cbn [fst] in Hnext. subst result. cbn. split; reflexivity.
Qed.

(** The loop left at once, before any sample. *)
Lemma loop_post_zero (duration : option F) (start_time : F)
  (st : LoopState) (script : list Tick) (self' : PowerMonitor) (why : stop) :
  running (self_of st) = true ->
  interval self' = interval (self_of st) ->
  output_file self' = output_file (self_of st) ->
  running self' = running (self_of st) ->
  measurements self' = measurements (self_of st) ->
  (why = DurationElapsed ->
   exists t, nth_error script 0 = Some t /\
             duration_elapsed duration start_time (check_clock t) = true) ->
  (why = ScriptEnd -> script = []) ->
  (why = Interrupted ->
   exists t, In t script /\ interruption t <> NoSigint) ->
  why <> NotRunning ->
  loop_post duration start_time st script
    {| self_of := self'; measurement_count := measurement_count st;
       sleeps := sleeps st |} why 0 0 [].
Proof.
  intros Hrun Hi Ho Hr Hm Hdur Hend Hint Hnot. unfold loop_post. cbn.
  rewrite Nat.add_0_r, !app_nil_r, Hr.
  repeat apply conj.
  - reflexivity.
  - exact Hm.
  - reflexivity.
  - reflexivity.
  - exact Hi.
  - exact Ho.
  - exact Hrun.
  - reflexivity.
  - left; reflexivity.
  - intros Hk. now elim Hk.
  - intros i t Hlt. inversion Hlt.
  - exact Hdur.
  - intros Hw. rewrite (Hend Hw). split; reflexivity.
  - exact Hint.
  - exact Hnot.
Qed.

(** The loop left after one sample, before its sleep. *)
Lemma loop_post_one (duration : option F) (start_time : F)
  (st : LoopState) (t : Tick) (script : list Tick)
  (self1 : PowerMonitor) (m : Measurement) (why : stop) :
  running (self_of st) = true ->
  duration_elapsed duration start_time (check_clock t) = false ->
  take_measurement (self_of st) (round t) = (Return m, self1) ->
  why <> DurationElapsed -> why <> ScriptEnd -> why <> NotRunning ->
  (why = Interrupted -> interruption t <> NoSigint) ->
  loop_post duration start_time st (t :: script)
    {| self_of := append self1 m;
       measurement_count := S (measurement_count st);
       sleeps := sleeps st |} why 1 0 [m].
Proof.
  intros Hrun Hel Htm Hd He Hn Hint.
  pose proof (take_measurement_frame (self_of st) (round t)) as Hframe.
  rewrite Htm in Hframe. cbn [snd] in Hframe.
  destruct Hframe as (Hi & Ho & Hr & Hm).
  pose proof (take_measurement_stamp _ _ Htm) as Hstamp.
  unfold loop_post, stamps. cbn.
  rewrite Hm, Hr, app_nil_r, Hstamp.
  repeat apply conj.
  - lia.
  - reflexivity.
  - reflexivity.
  - reflexivity.
  - exact Hi.
  - exact Ho.
  - exact Hrun.
  - reflexivity.
  - right; reflexivity.
  - intros Hk. now elim Hk.
  - intros i t' Hlt Hnth. destruct i as [| i]; [| lia].
    cbn in Hnth. injection Hnth as <-. exact Hel.
  - intros Hw. now elim Hd.
  - intros Hw. now elim He.
  - intros Hw. exists t. split; [left; reflexivity | exact (Hint Hw)].
  - exact Hn.
Qed.

(** One sample and its sleep, followed by the rest of the loop. *)
Lemma loop_post_step (duration : option F) (start_time : F)
  (st st' : LoopState) (t : Tick) (script : list Tick)
  (self1 : PowerMonitor) (m : Measurement) (why : stop)
  (n k : nat) (ms : list Measurement) :
  duration_elapsed duration start_time (check_clock t) = false ->
  take_measurement (self_of st) (round t) = (Return m, self1) ->
  sleep_accepts (interval (append self1 m)) = true ->
  loop_post duration start_time
    {| self_of := append self1 m;
       measurement_count := S (measurement_count st);
       sleeps := sleeps st ++ [interval (append self1 m)] |}
    script st' why n k ms ->
  loop_post duration start_time st (t :: script) st' why
    (S n) (S k) (m :: ms).
Proof.
  intros Hel Htm Hsleep Hpost.
  pose proof (take_measurement_frame (self_of st) (round t)) as Hframe.
  rewrite Htm in Hframe. cbn [snd] in Hframe.
  destruct Hframe as (Hi & Ho & Hr & Hm).
  unfold loop_post in *. cbn in Hpost, Hsleep.
  rewrite Hi in Hpost, Hsleep. rewrite Ho, Hm in Hpost.
  destruct Hpost as (Hc & Hms & Hlen & Hst & Hi' & Ho' & Hr' & Hsl & Hk &
                     Hacc & Hchk & Hdur & Hend & Hint & Hnot).
  pose proof (take_measurement_stamp _ _ Htm) as Hstamp.
  unfold stamps in *. cbn.
  repeat apply conj.
  - lia.
  - rewrite Hms, <- app_assoc. reflexivity.
  - f_equal. exact Hlen.
  - rewrite Hstamp, Hst. reflexivity.
  - exact Hi'.
  - exact Ho'.
  - exact Hr'.
  - rewrite Hsl, <- app_assoc. reflexivity.
  - destruct Hk as [-> | <-]; [left | right]; reflexivity.
  - intros _. exact Hsleep.
  - intros i t' Hlt Hnth. destruct i as [| i].
    + cbn in Hnth. injection Hnth as <-. exact Hel.
    + cbn in Hnth. apply (Hchk i t'); [lia | exact Hnth].
  - exact Hdur.
  - intros Hw. destruct (Hend Hw) as [-> ->]. split; reflexivity.
  - intros Hw. destruct (Hint Hw) as (t' & Hin & Hsig).
    exists t'. split; [right; exact Hin | exact Hsig].
  - exact Hnot.
Qed.

(** What an execution of the loop amounts to, for every script. *)
Lemma loop_spec (duration : option F) (start_time : F)
  (script : list Tick) :
  forall (st st' : LoopState) (why : stop),
    running (self_of st) = true ->
    loop duration start_time st script = (st', why) ->
    exists (n k : nat) (ms : list Measurement),
      loop_post duration start_time st script st' why n k ms.
Proof.
  induction script as [| t script IH]; intros st st' why Hrun Hloop.
  - cbn in Hloop. rewrite Hrun in Hloop. injection Hloop as <- <-.
    exists 0%nat, 0%nat, []. destruct st as [self c sl].
    apply loop_post_zero; try reflexivity; try discriminate; exact Hrun.
  - cbn [loop] in Hloop. rewrite Hrun in Hloop. cbn [negb] in Hloop.
    destruct (duration_elapsed duration start_time (check_clock t)) eqn:Hel.
    { injection Hloop as <- <-. exists 0%nat, 0%nat, [].
      destruct st as [self c sl].
      apply loop_post_zero; try reflexivity; try discriminate;
        [exact Hrun |].
      intros _. exists t. split; [reflexivity | exact Hel]. }
    destruct (take_measurement (self_of st) (round t)) as [[m | x] self1]
      eqn:Htm.
    + assert (Hrun' : running (append self1 m) = true).
      { pose proof (take_measurement_frame (self_of st) (round t)) as Hframe.
        rewrite Htm in Hframe. cbn [snd] in Hframe.
        destruct Hframe as (_ & _ & Hr & _). cbn. rewrite Hr. exact Hrun. }
      destruct (interruption t) eqn:Hsig.
      * destruct (sleep_accepts (interval (append self1 m))) eqn:Hsleep.
        -- cbn [sleeps] in Hloop. apply IH in Hloop; [| exact Hrun'].
           destruct Hloop as (n & k & ms & Hpost).
           exists (S n), (S k), (m :: ms).
           eapply loop_post_step; eassumption.
        -- injection Hloop as <- <-. exists 1%nat, 0%nat, [m].
           eapply loop_post_one; try eassumption; discriminate.
      * injection Hloop as <- <-. exists 0%nat, 0%nat, [].
        destruct st as [self c sl].
        apply loop_post_zero; try reflexivity; try discriminate;
          [exact Hrun |].
        intros _. exists t. split; [left; reflexivity |].
        rewrite Hsig. discriminate.
      * injection Hloop as <- <-. exists 1%nat, 0%nat, [m].
        eapply loop_post_one; try eassumption; try discriminate.
        intros _. rewrite Hsig. discriminate.
    + pose proof (take_measurement_frame (self_of st) (round t)) as Hframe.
      rewrite Htm in Hframe. cbn [snd] in Hframe.
      destruct Hframe as (Hi & Ho & Hr & Hm).
      assert (Hout : (st', why) =
                ({| self_of := self1;
                    measurement_count := measurement_count st;
                    sleeps := sleeps st |}, Crashed x)
                \/ (st', why) = (st, Interrupted) /\
                   interruption t = SigintCollecting).
      { destruct (interruption t); [left | right | left];
          try (injection Hloop as <- <-; reflexivity).
        split; [symmetry; exact Hloop | reflexivity]. }
      destruct Hout as [Hout | [Hout Hsig]]; injection Hout as -> ->;
        exists 0%nat, 0%nat, [].
      * apply loop_post_zero; try assumption; discriminate.
      * destruct st as [self c sl].
        apply loop_post_zero; try reflexivity; try discriminate;
          [exact Hrun |].
        intros _. exists t. split; [left; reflexivity |].
        rewrite Hsig. discriminate.
Qed.

(** What a run amounts to: it either ends in the priming round, or primes
    the estimator and executes the loop. *)
Lemma run_spec (self : PowerMonitor) (duration : option F) (w : World) :
  let r := run self duration w in
  (count r = 0%nat /\ slept r = [] /\ written r = [] /\
   measurements (final r) = measurements self /\
   exists e : exn, stopped r = Crashed e) \/
  (exists (m0 : Measurement) (self1 : PowerMonitor) (st' : LoopState)
          (n k : nat) (ms : list Measurement),
     priming_interrupted w = false /\
     take_measurement (set_running self true) (priming w) =
       (Return m0, self1) /\
     loop_post duration (start_clock w)
       {| self_of := self1; measurement_count := 0; sleeps := [] |}
       (ticks w) st' (stopped r) n k ms /\
     count r = measurement_count st' /\
     slept r = sleeps st' /\
     measurements (final r) = measurements (self_of st') /\
     written r =
       match stopped r with
       | ScriptEnd => []
       | _ => finalize (set_running (self_of st') false)
       end).
Proof.
  unfold run.
  destruct (priming_interrupted w) eqn:Hsig.
  { left. cbn. repeat split. exists KeyboardInterrupt. reflexivity. }
  pose proof (take_measurement_frame (set_running self true) (priming w))
    as Hframe.
  destruct (take_measurement (set_running self true) (priming w))
    as [[m0 | e] self1] eqn:Hprime; cbn [snd] in Hframe;
    destruct Hframe as (Hi & Ho & Hr & Hm).
  2: { left. cbn. repeat split; [exact Hm | exists e; reflexivity]. }
  right.
  destruct (loop duration (start_clock w)
              {| self_of := self1; measurement_count := 0; sleeps := [] |}
              (ticks w)) as [st' why] eqn:Hloop.
  apply loop_spec in Hloop; [| cbn; rewrite Hr; reflexivity].
  destruct Hloop as (n & k & ms & Hpost).
  exists m0, self1, st', n, k, ms.
  split; [reflexivity |]. split; [reflexivity |].
  destruct why; cbn; (split; [exact Hpost |]); repeat split.
Qed.



(** C2, amended. Every sleep the loop requests is the configured interval,
    whatever the time spent collecting; there is one sleep for each sample,
    except that the last sample has none when the run is cut short there;
    and a sleep is only ever slept when the interval is not negative. *)
Theorem sleeps_are_the_interval
  (self : PowerMonitor) (duration : option F) (w : World) :
  let r := run self duration w in
  exists k : nat,
    slept r = repeat (interval self) k /\
    (k = count r \/ S k = count r) /\
    (k <> 0%nat -> sleep_accepts (interval self) = true).
Proof.
  intros r.
  destruct (run_spec self duration w)
    as [(Hc & Hs & _) |
        (m0 & self1 & st' & n & k & ms & _ & Hprime & Hpost & Hc & Hs & _)];
    fold r in Hc, Hs.
  - exists 0%nat. rewrite Hc, Hs. repeat split.
    + left; reflexivity.
    + intros Hk. now elim Hk.
  - pose proof (take_measurement_frame (set_running self true) (priming w))
      as Hframe.
    rewrite Hprime in Hframe. cbn in Hframe. destruct Hframe as (Hi & _).
    destruct Hpost as (Hcount & _ & _ & _ & _ & _ & _ & Hsl & Hk & Hacc & _).
    cbn in Hcount, Hsl, Hacc. rewrite Hi in Hsl, Hacc.
    exists k. rewrite Hs, Hc, Hcount. repeat split; assumption.
Qed.

(** C3, amended. With a finite duration, the run stops on a check exactly
    where the clock, less the clock read at the start of [run] (before the
    priming round), has reached the duration, no earlier check having done
    so; the time the priming round takes therefore counts against the
    duration, and a first check that finds the duration used up ends the
    run with no sample. *)
Theorem duration_counts_from_run_start
  (self : PowerMonitor) (d : F) (w : World) :
  let r := run self (Some d) w in
  (stopped r = DurationElapsed ->
   exists t : Tick,
     nth_error (ticks w) (count r) = Some t /\
     ftruthy d = true /\
     fleb d (fsub (check_clock t) (start_clock w)) = true /\
     forall (i : nat) (t' : Tick),
       (i < count r)%nat -> nth_error (ticks w) i = Some t' ->
       ftruthy d && fleb d (fsub (check_clock t') (start_clock w)) = false)
  /\
  (forall (t : Tick) (rest : list Tick) (m0 : Measurement),
     ticks w = t :: rest ->
     priming_interrupted w = false ->
     fst (take_measurement (set_running self true) (priming w)) = Return m0 ->
     ftruthy d = true ->
     fleb d (fsub (check_clock t) (start_clock w)) = true ->
     stopped r = DurationElapsed /\ count r = 0%nat).
Proof.
  intros r. split.
  - intros Hstop.
    destruct (run_spec self (Some d) w)
      as [(_ & _ & _ & _ & e & Hcr) |
          (m0 & self1 & st' & n & k & ms & _ & _ & Hpost & Hc & _)];
      fold r in Hcr || fold r in Hpost, Hc.
    + rewrite Hstop in Hcr. discriminate Hcr.
    + destruct Hpost as (Hcount & _ & _ & _ & _ & _ & _ & _ & _ & _ &
                         Hchk & Hdur & _).
      cbn in Hcount. rewrite Hc, Hcount.
      destruct (Hdur Hstop) as (t & Hnth & Hel).
      cbn in Hel. apply andb_true_iff in Hel. destruct Hel as [Htr Hle].
      exists t. split; [exact Hnth |]. split; [exact Htr |].
      split; [exact Hle |].
      intros i t' Hlt Hnth'. exact (Hchk i t' Hlt Hnth').
  - intros t rest m0 Hticks Hsig Hprime Htr Hle.
    subst r. unfold run. rewrite Hsig.
    pose proof (take_measurement_frame (set_running self true) (priming w))
      as Hframe.
    destruct (take_measurement (set_running self true) (priming w))
      as [res self1]. cbn in Hprime, Hframe. subst res.
    destruct Hframe as (_ & _ & Hr & _).
    rewrite Hticks. cbn [loop self_of]. rewrite Hr.
    cbn [duration_elapsed negb]. rewrite Htr, Hle. cbn. split; reflexivity.
Qed.

Lemma output_path_init (iv : F) (p : string) (vb : bool) :
  p <> ""%string -> output_path (init iv (Some p) vb) = Some p.
Proof.
  intros Hp. unfold output_path. cbn.
  destruct p; [now elim Hp | reflexivity].
Qed.




End Loop_facts.

(** ** Concrete runs *)

Section Concrete_runs.

Local Open Scope float_scope.

(** The estimator on binary64: 1000 uJ over two seconds. *)
Lemma power_of_increasing_energy_witness :
  fst (calculate_rapl_power
         (snd (calculate_rapl_power monitor 100 0)) 1100 2) =
    Return (Some (fdiv (fdiv 1000 (fsub 2 0)) 1000000)).
Proof.
  apply power_of_increasing_energy.
  - apply both_or_neither_init.
  - vm_compute. discriminate.
  - vm_compute. reflexivity.
  - vm_compute. reflexivity.
  - vm_compute. reflexivity.
Defined.



(** Two samples with the same timestamp. *)
Lemma no_power_without_elapsed_time_witness :
  let (result, self') :=
    calculate_rapl_power (snd (calculate_rapl_power monitor 100 5)) 200 5 in
  result = Return None /\
  prev_rapl_energy self' = Some 200%Z /\ prev_rapl_time self' = Some 5.
Proof.
  apply (no_power_without_elapsed_time
           (snd (calculate_rapl_power monitor 100 5)) 200 5 (e1 := 100%Z)
           (t1 := 5)).
  - vm_compute. reflexivity.
  - vm_compute. reflexivity.
  - vm_compute. reflexivity.
Defined.



(** A failed read between a reading of 1 J at [t = 1] and one of 4 J at
    [t = 3]. *)
Lemma failed_read_keeps_previous_sample_witness :
  exists m2 m3 : Measurement,
    take_measurement (snd (calculate_rapl_power monitor 1000000 1))
      {| clock := 2; clock_text := ""; ipmi := None; rapl := FileError;
         collect_end := 2 |} =
      (Return m2, snd (calculate_rapl_power monitor 1000000 1)) /\
    rapl_energy_uj m2 = None /\ rapl_pkg_watts m2 = None /\
    fst (take_measurement
           (snd (take_measurement
                   (snd (calculate_rapl_power monitor 1000000 1))
                   {| clock := 2; clock_text := ""; ipmi := None;
                      rapl := FileError; collect_end := 2 |}))
           (reading 3 "4000000" 3)) = Return m3 /\
    rapl_pkg_watts m3 = Some (fdiv (fdiv 3000000 (fsub 3 1)) 1000000).
Proof.
  apply (failed_read_keeps_previous_sample
           (snd (calculate_rapl_power monitor 1000000 1))
           {| clock := 2; clock_text := ""; ipmi := None; rapl := FileError;
              collect_end := 2 |}
           (reading 3 "4000000" 3) (e1 := 1000000%Z) (e3 := 4000000%Z)
           (t1 := 1)).
  - vm_compute. reflexivity.
  - vm_compute. reflexivity.
  - vm_compute. reflexivity.
  - vm_compute. reflexivity.
  - vm_compute. discriminate.
  - vm_compute. reflexivity.
  - vm_compute. reflexivity.
  - vm_compute. reflexivity.
Defined.

(** C2, as stated, fails: collecting takes a quarter of a second in each
    round of [steady_world], so the specification has the loop sleep
    three quarters of a second; it sleeps the whole second. *)
Lemma full_interval_slept_after_collecting :
  let r := run monitor None steady_world in
  slept r = [1; 1] /\
  map (fun t => spec_sleep (interval monitor) (round t)) (ticks steady_world)
    = [0.75; 0.75] /\
  slept r <>
    map (fun t => spec_sleep (interval monitor) (round t))
      (ticks steady_world).
Proof.
  split; [vm_compute; reflexivity |].
  split; [vm_compute; reflexivity |].
  intros Heq.
  apply (f_equal (fun l => match l with
                           | x :: _ => PrimFloat.ltb x 1
                           | [] => false
                           end)) in Heq.
  vm_compute in Heq. discriminate Heq.
Qed.

(** C3, as stated, fails: in [slow_priming_world] the priming round takes
    ten seconds and the duration is five.  Measured from the start of the
    Sampling state, no time has elapsed at the first check; the run stops
    there all the same, with no sample. *)
Lemma priming_time_counts_against_duration :
  let w := slow_priming_world in
  let r := run monitor (Some 5) w in
  exists t : Tick,
    nth_error (ticks w) 0 = Some t /\
    spec_duration_elapsed (Some 5) w (check_clock t) = false /\
    stopped r = DurationElapsed /\ count r = 0%nat.
Proof.
  eexists. split; [reflexivity |]. vm_compute. repeat split.
Qed.

Lemma duration_counts_from_run_start_witness :
  stopped (run monitor (Some 5) slow_priming_world) = DurationElapsed /\
  count (run monitor (Some 5) slow_priming_world) = 0%nat.
Proof.
  apply (proj2 (duration_counts_from_run_start monitor 5 slow_priming_world)
           (tick_at 10 "2000000" 10.25)
           [tick_at 11.25 "4000000" 11.5]
           {| timestamp := "2024-01-01 00:00:00.000";
              timestamp_unix := 0;
              ipmi_watts := Some 100;
              rapl_pkg_watts := None;
              rapl_energy_uj := Some 1000000%Z |}).
  - reflexivity.
  - reflexivity.
  - vm_compute. reflexivity.
  - vm_compute. reflexivity.
  - vm_compute. reflexivity.
Defined.




(** The same run, evaluated: two samples, two sleeps, and the loop still
    going when the script ends. *)
Example zero_duration_run :
  let r := run monitor (Some 0) steady_world in
  count r = 2%nat /\ slept r = [1; 1] /\ stopped r = ScriptEnd.
Proof. vm_compute. repeat split. Qed.

End Concrete_runs.

(** * Further properties *)

(** ** More on the estimator *)

Section Estimator_more.

Context {F : Type} `{PyFloat F}.

Lemma estimator_calls_app (self : PowerMonitor) (calls more : list (Z * F)) :
  estimator_calls self (calls ++ more) =
    estimator_calls (estimator_calls self calls) more.
Proof.
  revert self. induction calls as [| [e t] rest IH]; intros self.
  - reflexivity.
  - cbn. apply IH.
Qed.

Lemma both_or_neither_calls (self : PowerMonitor) (calls : list (Z * F)) :
  both_or_neither self -> both_or_neither (estimator_calls self calls).
Proof.
  revert self. induction calls as [| [e t] rest IH]; intros self Hinv.
  - exact Hinv.
  - cbn. apply IH, both_or_neither_step, Hinv.
Qed.

(** X1. Whatever calls came before and whatever they returned, after a
    call the object holds the energy and the timestamp of that call. *)
Theorem latest_sample_is_stored
  (i : F) (o : option string) (v : bool) (calls : list (Z * F))
  (e : Z) (t : F) :
  stored (estimator_calls (init i o v) (calls ++ [(e, t)])) =
    (Some e, Some t).
Proof.
  rewrite estimator_calls_app. cbn [estimator_calls].
  pose proof (both_or_neither_calls calls (both_or_neither_init i o v))
    as Hinv.
  destruct (calculate_stores e t Hinv) as (He & Ht & _).
  unfold stored. rewrite He, Ht. reflexivity.
Qed.

Lemma wrapped_delta (e1 energy : Z) :
  0 <= e1 < 2 ^ 32 -> 0 <= energy < 2 ^ 32 ->
  corrected_delta ((e1 + energy) mod 2 ^ 32 - e1) = energy.
Proof.
  intros He1 Hen. unfold corrected_delta, max_counter.
  destruct (Z_lt_ge_dec (e1 + energy) (2 ^ 32)) as [Hsmall | Hbig].
  - rewrite Z.mod_small by lia.
    destruct (Z.ltb_spec (e1 + energy - e1) 0); lia.
  - assert (Hmod : (e1 + energy) mod 2 ^ 32 = e1 + energy - 2 ^ 32).
    { symmetry. apply (Z.mod_unique _ _ 1); lia. }
    rewrite Hmod.
    destruct (Z.ltb_spec (e1 + energy - 2 ^ 32 - e1) 0); lia.
Qed.

(** X2. For a counter that is 32 bits wide and wraps at most once between
    two samples, the rollover correction is exact: when [energy]
    microjoules were used since the stored reading [e1], so that the
    counter reads [(e1 + energy) mod 2^32], the second call returns
    [energy / delta_time / 1_000_000]. *)
Theorem wrapped_counter_power_is_exact
  (self : PowerMonitor) (e1 energy : Z) (t1 t2 d m : F) :
  both_or_neither self ->
  0 <= e1 < 2 ^ 32 ->
  0 <= energy < 2 ^ 32 ->
  fleb (fsub t2 t1) fzero = false ->
  of_int energy = Some d ->
  of_int 1000000 = Some m ->
  fst (calculate_rapl_power (snd (calculate_rapl_power self e1 t1))
         ((e1 + energy) mod 2 ^ 32) t2) =
    Return (Some (fdiv (fdiv d (fsub t2 t1)) m)).
Proof.
  intros Hinv He1 Hen Hdt Hd Hm.
  apply second_call_formula; try assumption.
  rewrite wrapped_delta by assumption. exact Hd.
Qed.

End Estimator_more.

(** ** More on the energy-counter text *)

Section Parser_more.

Lemma uint_chars_digits (d : Decimal.uint) :
  Forall (fun c => is_digit c = true) (uint_chars d).
Proof.
  unfold uint_chars.
  induction d; cbn; constructor; try reflexivity; assumption.
Qed.

Lemma uint_chars_nil (d : Decimal.uint) : uint_chars d = [] -> d = Decimal.Nil.
Proof. destruct d; cbn; intros Heq; [reflexivity | discriminate Heq ..]. Qed.

Lemma uint_nil_dec (l : Decimal.uint) : {l = Decimal.Nil} + {l <> Decimal.Nil}.
Proof. destruct l; [left; reflexivity | right; discriminate ..]. Qed.

(** A last digit [c], of value [k]. *)
Lemma digits_value_last (acc k : Z) (c : ascii) :
  is_digit c = true -> digit_value c = k ->
  digits_value acc (c :: uint_chars Decimal.Nil) = Some (10 * acc + k).
Proof. intros Hc Hk. cbn. rewrite Hc, Hk. reflexivity. Qed.

(** One more digit [c], of value [k], in front of the digits [l]. *)
Lemma digits_value_more (acc k : Z) (c : ascii) (l : Decimal.uint) :
  is_digit c = true -> digit_value c = k -> l <> Decimal.Nil ->
  digits_value acc (c :: uint_chars l) =
    digits_value (10 * acc + k) (uint_chars l).
Proof.
  intros Hc Hk Hl. rewrite digits_value_cons, Hc, Hk.
  pose proof (uint_chars_digits l) as Hdigits.
  destruct (uint_chars l) as [| c' rest] eqn:Hchars.
  - apply uint_chars_nil in Hchars. now elim Hl.
  - inversion Hdigits as [| ? ? Hc' _]; subst.
    rewrite (digit_not_underscore c' Hc'). reflexivity.
Qed.

Lemma digits_value_uint_acc (d : Decimal.uint) :
  d <> Decimal.Nil ->
  forall acc : positive,
    digits_value (Zpos acc) (uint_chars d) =
      Some (Zpos (Pos.of_uint_acc d acc)).
Proof.
  induction d as [| l IH | l IH | l IH | l IH | l IH | l IH | l IH | l IH
                  | l IH | l IH]; intros Hnil acc; [now elim Hnil | ..].
  - change (uint_chars (Decimal.D0 l)) with ("0"%char :: uint_chars l).
    cbn [Pos.of_uint_acc]. destruct (uint_nil_dec l) as [-> | Hl].
    + rewrite (@digits_value_last (Zpos acc) 0 "0"%char eq_refl eq_refl).
      f_equal; cbn [Pos.of_uint_acc]; try lia.
    + rewrite (@digits_value_more (Zpos acc) 0 "0"%char l eq_refl eq_refl Hl).
      replace (10 * Zpos acc + 0) with (Zpos (10 * acc)) by lia.
      apply IH, Hl.
  - change (uint_chars (Decimal.D1 l)) with ("1"%char :: uint_chars l).
    cbn [Pos.of_uint_acc]. destruct (uint_nil_dec l) as [-> | Hl].
    + rewrite (@digits_value_last (Zpos acc) 1 "1"%char eq_refl eq_refl).
      f_equal; cbn [Pos.of_uint_acc]; try lia.
    + rewrite (@digits_value_more (Zpos acc) 1 "1"%char l eq_refl eq_refl Hl).
      replace (10 * Zpos acc + 1) with (Zpos (1 + 10 * acc)) by lia.
      apply IH, Hl.
  - change (uint_chars (Decimal.D2 l)) with ("2"%char :: uint_chars l).
    cbn [Pos.of_uint_acc]. destruct (uint_nil_dec l) as [-> | Hl].
    + rewrite (@digits_value_last (Zpos acc) 2 "2"%char eq_refl eq_refl).
      f_equal; cbn [Pos.of_uint_acc]; try lia.
    + rewrite (@digits_value_more (Zpos acc) 2 "2"%char l eq_refl eq_refl Hl).
      replace (10 * Zpos acc + 2) with (Zpos (2 + 10 * acc)) by lia.
      apply IH, Hl.
  - change (uint_chars (Decimal.D3 l)) with ("3"%char :: uint_chars l).
    cbn [Pos.of_uint_acc]. destruct (uint_nil_dec l) as [-> | Hl].
    + rewrite (@digits_value_last (Zpos acc) 3 "3"%char eq_refl eq_refl).
      f_equal; cbn [Pos.of_uint_acc]; try lia.
    + rewrite (@digits_value_more (Zpos acc) 3 "3"%char l eq_refl eq_refl Hl).
      replace (10 * Zpos acc + 3) with (Zpos (3 + 10 * acc)) by lia.
      apply IH, Hl.
  - change (uint_chars (Decimal.D4 l)) with ("4"%char :: uint_chars l).
    cbn [Pos.of_uint_acc]. destruct (uint_nil_dec l) as [-> | Hl].
    + rewrite (@digits_value_last (Zpos acc) 4 "4"%char eq_refl eq_refl).
      f_equal; cbn [Pos.of_uint_acc]; try lia.
    + rewrite (@digits_value_more (Zpos acc) 4 "4"%char l eq_refl eq_refl Hl).
      replace (10 * Zpos acc + 4) with (Zpos (4 + 10 * acc)) by lia.
      apply IH, Hl.
  - change (uint_chars (Decimal.D5 l)) with ("5"%char :: uint_chars l).
    cbn [Pos.of_uint_acc]. destruct (uint_nil_dec l) as [-> | Hl].
    + rewrite (@digits_value_last (Zpos acc) 5 "5"%char eq_refl eq_refl).
      f_equal; cbn [Pos.of_uint_acc]; try lia.
    + rewrite (@digits_value_more (Zpos acc) 5 "5"%char l eq_refl eq_refl Hl).
      replace (10 * Zpos acc + 5) with (Zpos (5 + 10 * acc)) by lia.
      apply IH, Hl.
  - change (uint_chars (Decimal.D6 l)) with ("6"%char :: uint_chars l).
    cbn [Pos.of_uint_acc]. destruct (uint_nil_dec l) as [-> | Hl].
    + rewrite (@digits_value_last (Zpos acc) 6 "6"%char eq_refl eq_refl).
      f_equal; cbn [Pos.of_uint_acc]; try lia.
    + rewrite (@digits_value_more (Zpos acc) 6 "6"%char l eq_refl eq_refl Hl).
      replace (10 * Zpos acc + 6) with (Zpos (6 + 10 * acc)) by lia.
      apply IH, Hl.
  - change (uint_chars (Decimal.D7 l)) with ("7"%char :: uint_chars l).
    cbn [Pos.of_uint_acc]. destruct (uint_nil_dec l) as [-> | Hl].
    + rewrite (@digits_value_last (Zpos acc) 7 "7"%char eq_refl eq_refl).
      f_equal; cbn [Pos.of_uint_acc]; try lia.
    + rewrite (@digits_value_more (Zpos acc) 7 "7"%char l eq_refl eq_refl Hl).
      replace (10 * Zpos acc + 7) with (Zpos (7 + 10 * acc)) by lia.
      apply IH, Hl.
  - change (uint_chars (Decimal.D8 l)) with ("8"%char :: uint_chars l).
    cbn [Pos.of_uint_acc]. destruct (uint_nil_dec l) as [-> | Hl].
    + rewrite (@digits_value_last (Zpos acc) 8 "8"%char eq_refl eq_refl).
      f_equal; cbn [Pos.of_uint_acc]; try lia.
    + rewrite (@digits_value_more (Zpos acc) 8 "8"%char l eq_refl eq_refl Hl).
      replace (10 * Zpos acc + 8) with (Zpos (8 + 10 * acc)) by lia.
      apply IH, Hl.
  - change (uint_chars (Decimal.D9 l)) with ("9"%char :: uint_chars l).
    cbn [Pos.of_uint_acc]. destruct (uint_nil_dec l) as [-> | Hl].
    + rewrite (@digits_value_last (Zpos acc) 9 "9"%char eq_refl eq_refl).
      f_equal; cbn [Pos.of_uint_acc]; try lia.
    + rewrite (@digits_value_more (Zpos acc) 9 "9"%char l eq_refl eq_refl Hl).
      replace (10 * Zpos acc + 9) with (Zpos (9 + 10 * acc)) by lia.
      apply IH, Hl.
Qed.

Lemma digits_value_uint (d : Decimal.uint) :
  d <> Decimal.Nil ->
  digits_value 0 (uint_chars d) = Some (Z.of_N (Pos.of_uint d)).
Proof.
  induction d as [| l IH | l IH | l IH | l IH | l IH | l IH | l IH | l IH
                  | l IH | l IH]; intros Hnil; [now elim Hnil | ..].
  - change (uint_chars (Decimal.D0 l)) with ("0"%char :: uint_chars l).
    cbn [Pos.of_uint]. destruct (uint_nil_dec l) as [-> | Hl].
    + reflexivity.
    + rewrite (@digits_value_more 0 0 "0"%char l eq_refl eq_refl Hl).
      apply IH, Hl.
  - change (uint_chars (Decimal.D1 l)) with ("1"%char :: uint_chars l).
    cbn [Pos.of_uint]. destruct (uint_nil_dec l) as [-> | Hl].
    + reflexivity.
    + rewrite (@digits_value_more 0 1 "1"%char l eq_refl eq_refl Hl).
      apply (digits_value_uint_acc Hl).
  - change (uint_chars (Decimal.D2 l)) with ("2"%char :: uint_chars l).
    cbn [Pos.of_uint]. destruct (uint_nil_dec l) as [-> | Hl].
    + reflexivity.
    + rewrite (@digits_value_more 0 2 "2"%char l eq_refl eq_refl Hl).
      apply (digits_value_uint_acc Hl).
  - change (uint_chars (Decimal.D3 l)) with ("3"%char :: uint_chars l).
    cbn [Pos.of_uint]. destruct (uint_nil_dec l) as [-> | Hl].
    + reflexivity.
    + rewrite (@digits_value_more 0 3 "3"%char l eq_refl eq_refl Hl).
      apply (digits_value_uint_acc Hl).
  - change (uint_chars (Decimal.D4 l)) with ("4"%char :: uint_chars l).
    cbn [Pos.of_uint]. destruct (uint_nil_dec l) as [-> | Hl].
    + reflexivity.
    + rewrite (@digits_value_more 0 4 "4"%char l eq_refl eq_refl Hl).
      apply (digits_value_uint_acc Hl).
  - change (uint_chars (Decimal.D5 l)) with ("5"%char :: uint_chars l).
    cbn [Pos.of_uint]. destruct (uint_nil_dec l) as [-> | Hl].
    + reflexivity.
    + rewrite (@digits_value_more 0 5 "5"%char l eq_refl eq_refl Hl).
      apply (digits_value_uint_acc Hl).
  - change (uint_chars (Decimal.D6 l)) with ("6"%char :: uint_chars l).
    cbn [Pos.of_uint]. destruct (uint_nil_dec l) as [-> | Hl].
    + reflexivity.
    + rewrite (@digits_value_more 0 6 "6"%char l eq_refl eq_refl Hl).
      apply (digits_value_uint_acc Hl).
  - change (uint_chars (Decimal.D7 l)) with ("7"%char :: uint_chars l).
    cbn [Pos.of_uint]. destruct (uint_nil_dec l) as [-> | Hl].
    + reflexivity.
    + rewrite (@digits_value_more 0 7 "7"%char l eq_refl eq_refl Hl).
      apply (digits_value_uint_acc Hl).
  - change (uint_chars (Decimal.D8 l)) with ("8"%char :: uint_chars l).
    cbn [Pos.of_uint]. destruct (uint_nil_dec l) as [-> | Hl].
    + reflexivity.
    + rewrite (@digits_value_more 0 8 "8"%char l eq_refl eq_refl Hl).
      apply (digits_value_uint_acc Hl).
  - change (uint_chars (Decimal.D9 l)) with ("9"%char :: uint_chars l).
    cbn [Pos.of_uint]. destruct (uint_nil_dec l) as [-> | Hl].
    + reflexivity.
    + rewrite (@digits_value_more 0 9 "9"%char l eq_refl eq_refl Hl).
      apply (digits_value_uint_acc Hl).
Qed.

Lemma digit_not_space (c : ascii) : is_digit c = true -> is_space c = false.
Proof.
  unfold is_digit, is_space. intros Hc.
  apply andb_true_iff in Hc. destruct Hc as [Hlo _].
  apply Nat.leb_le in Hlo.
  assert (H13 : (nat_of_ascii c <=? 13)%nat = false)
    by (apply Nat.leb_gt; lia).
  assert (H32 : (nat_of_ascii c <=? 32)%nat = false)
    by (apply Nat.leb_gt; lia).
  rewrite H13, H32, !andb_false_r. reflexivity.
Qed.

Lemma lstrip_spaces (ws l : list ascii) :
  Forall (fun c => is_space c = true) ws -> lstrip (ws ++ l) = lstrip l.
Proof.
  induction 1 as [| c ws Hc _ IH]; [reflexivity |].
  cbn. rewrite Hc. exact IH.
Qed.

Lemma lstrip_keeps (x y : list ascii) (c : ascii) :
  is_space c = false -> lstrip (x ++ c :: y) = lstrip x ++ c :: y.
Proof.
  intros Hc. induction x as [| a x IH]; cbn.
  - rewrite Hc. reflexivity.
  - destruct (is_space a); [exact IH | reflexivity].
Qed.

(** [strip] takes the whitespace off both ends of a text that has none
    at its own ends. *)
Lemma strip_core (ws1 ws2 core : list ascii) :
  Forall (fun c => is_space c = true) ws1 ->
  Forall (fun c => is_space c = true) ws2 ->
  Forall (fun c => is_space c = false) core ->
  core <> [] ->
  strip (ws1 ++ core ++ ws2) = core.
Proof.
  intros Hws1 Hws2 Hcore Hne. unfold strip.
  rewrite lstrip_spaces by assumption.
  destruct (exists_last Hne) as (body & z & ->).
  assert (Hz : is_space z = false).
  { rewrite Forall_forall in Hcore. apply Hcore, in_or_app.
    right; left; reflexivity. }
  assert (Hhead : lstrip ((body ++ [z]) ++ ws2) = (body ++ [z]) ++ ws2).
  { destruct body as [| a body].
    - cbn. rewrite Hz. reflexivity.
    - cbn. inversion Hcore as [| ? ? Ha _]; subst. rewrite Ha. reflexivity. }
  rewrite Hhead, rev_app_distr, rev_app_distr. cbn [List.rev List.app].
  rewrite (@lstrip_keeps (List.rev ws2) (List.rev body) z Hz).
  assert (Hnil : lstrip (List.rev ws2) = []).
  { rewrite <- (app_nil_r (List.rev ws2)), lstrip_spaces; [reflexivity |].
    apply Forall_rev, Hws2. }
  rewrite Hnil. cbn [List.app List.rev]. rewrite rev_involutive. reflexivity.
Qed.

Lemma decimal_cases (z : Z) :
  exists d : Decimal.uint,
    d <> Decimal.Nil /\
    (decimal z = uint_chars d /\ z = Z.of_N (Pos.of_uint d) \/
     decimal z = "-"%char :: uint_chars d /\
     z = - Z.of_N (Pos.of_uint d)).
Proof.
  pose proof (DecimalZ.of_to z) as Hback. unfold decimal.
  destruct z as [| p | p]; cbn [Z.to_int] in *.
  - exists (Decimal.D0 Decimal.Nil). split; [discriminate |]. left. split; reflexivity.
  - exists (Pos.to_uint p).
    split; [apply DecimalPos.Unsigned.to_uint_nonnil |].
    left. split; [reflexivity | symmetry; exact Hback].
  - exists (Pos.to_uint p).
    split; [apply DecimalPos.Unsigned.to_uint_nonnil |].
    right. split; [reflexivity | symmetry; exact Hback].
Qed.

(** X3. Reading inverts printing: the decimal text of an integer, with
    any whitespace before and after it (the kernel ends the text with a
    newline), is read back as that integer.  The bound keeps the text
    within the number of digits that [int] accepts. *)
Theorem decimal_text_is_read_back (z : Z) (ws1 ws2 : list ascii) :
  Z.abs z < 10 ^ 4300 ->
  Forall (fun c => is_space c = true) ws1 ->
  Forall (fun c => is_space c = true) ws2 ->
  read_rapl_energy
    (FileContent (string_of_list_ascii (ws1 ++ decimal z ++ ws2))) = Some z.
Proof.
  intros _ Hws1 Hws2. cbn [read_rapl_energy].
  rewrite list_ascii_of_string_of_list_ascii. unfold py_int.
  destruct (decimal_cases z) as (d & Hd & [[Htext Hz] | [Htext Hz]]).
  - assert (Hdigits := uint_chars_digits d).
    rewrite strip_core; try assumption.
    + rewrite Htext in *. destruct (uint_chars d) as [| c ds] eqn:Hchars.
      { apply uint_chars_nil in Hchars. now elim Hd. }
      inversion Hdigits as [| ? ? Hc _]; subst c ds.
      destruct (digit_not_sign _ Hc) as [-> ->].
      rewrite <- Hchars, (digits_value_uint Hd), <- Hz. reflexivity.
    + rewrite Htext. eapply Forall_impl; [| exact Hdigits].
      intros c Hc. apply digit_not_space, Hc.
    + rewrite Htext. intros Hnil. apply uint_chars_nil in Hnil.
      exact (Hd Hnil).
  - rewrite strip_core; try assumption.
    + rewrite Htext. cbn. rewrite (digits_value_uint Hd). cbn.
      rewrite <- Hz. reflexivity.
    + rewrite Htext. constructor; [reflexivity |].
      eapply Forall_impl; [| apply uint_chars_digits].
      intros c Hc. apply digit_not_space, Hc.
    + rewrite Htext. discriminate.
Qed.

End Parser_more.

(** ** The out-of-band reader *)

Unset Implicit Arguments.

Section Text_facts.

Lemma split_on_nonempty (sep : ascii) (l : list ascii) :
  split_on sep l <> [].
Proof.
  destruct l as [| c rest]; cbn; [discriminate |].
  destruct (Ascii.eqb c sep); [discriminate |].
  destruct (split_on sep rest); discriminate.
Qed.

(** A text without the separator is one piece. *)
Lemma split_on_whole (sep : ascii) (l : list ascii) :
  ~ In sep l -> split_on sep l = [l].
Proof.
  induction l as [| c rest IH]; intros Hno; [reflexivity |].
  cbn. destruct (Ascii.eqb_spec c sep) as [-> | _].
  - elim Hno. left; reflexivity.
  - rewrite IH; [reflexivity |]. intros Hin. apply Hno. right; exact Hin.
Qed.

(** A prefix without the separator stays in the first piece. *)
Lemma split_on_prefix (sep : ascii) (a b : list ascii) :
  ~ In sep a ->
  exists (piece : list ascii) (pieces : list (list ascii)),
    split_on sep b = piece :: pieces /\
    split_on sep (a ++ b) = (a ++ piece) :: pieces.
Proof.
  induction a as [| c a IH]; intros Hno.
  - destruct (split_on sep b) as [| piece pieces] eqn:Hb.
    + elim (split_on_nonempty _ _ Hb).
    + exists piece, pieces. split; [reflexivity | exact Hb].
  - destruct IH as (piece & pieces & Hb & Hab).
    { intros Hin. apply Hno. right; exact Hin. }
    exists piece, pieces. split; [exact Hb |].
    cbn. destruct (Ascii.eqb_spec c sep) as [-> | _].
    + elim Hno. left; reflexivity.
    + rewrite Hab. reflexivity.
Qed.

(** The first separator ends the first piece. *)
Lemma split_on_first (sep : ascii) (a b : list ascii) :
  ~ In sep a -> split_on sep (a ++ sep :: b) = a :: split_on sep b.
Proof.
  intros Hno.
  destruct (split_on_prefix sep a (sep :: b) Hno) as (piece & pieces & Hb & Hab).
  cbn in Hb. rewrite Ascii.eqb_refl in Hb. injection Hb as <- <-.
  rewrite Hab, app_nil_r. reflexivity.
Qed.


(** Splitting at the newlines gives back the lines that were joined. *)
Lemma split_on_join (lines : list (list ascii)) :
  lines <> [] ->
  Forall (fun line => ~ In "010"%char line) lines ->
  split_on "010" (join_lines lines) = lines.
Proof.
  induction lines as [| line rest IH]; intros Hne Hall; [now elim Hne |].
  inversion Hall as [| ? ? Hline Hrest]; subst.
  destruct rest as [| next rest].
  - cbn. apply split_on_whole, Hline.
  - change (join_lines (line :: next :: rest))
      with (line ++ "010"%char :: join_lines (next :: rest)).
    rewrite (split_on_first _ _ _ Hline), IH; [reflexivity | discriminate | exact Hrest].
Qed.

Lemma starts_with_app (needle a b : list ascii) :
  starts_with needle a = true -> starts_with needle (a ++ b) = true.
Proof.
  revert a. induction needle as [| p needle IH]; intros a Ha;
    [reflexivity |].
  destruct a as [| c a]; [discriminate Ha |].
  cbn in *. apply andb_true_iff in Ha. destruct Ha as [-> Ha].
  cbn. apply IH, Ha.
Qed.

Lemma contains_cons (needle l : list ascii) :
  contains needle l =
    starts_with needle l ||
    match l with
    | [] => false
    | _ :: rest => contains needle rest
    end.
Proof. destruct l; reflexivity. Qed.

(** What one text holds, a longer one holds. *)
Lemma contains_app (needle a b : list ascii) :
  contains needle a = true -> contains needle (a ++ b) = true.
Proof.
  induction a as [| c a IH]; intros Ha.
  - rewrite contains_cons in Ha. rewrite orb_false_r in Ha.
    rewrite contains_cons. rewrite (starts_with_app needle [] b Ha). reflexivity.
  - rewrite contains_cons in Ha. apply orb_true_iff in Ha.
    change ((c :: a) ++ b) with (c :: a ++ b). rewrite contains_cons.
    destruct Ha as [Ha | Ha].
    + pose proof (starts_with_app needle (c :: a) b Ha) as Hs.
      cbn [List.app] in Hs. rewrite Hs. reflexivity.
    + rewrite (IH Ha). apply orb_true_r.
Qed.

(** The left strip leaves a suffix. *)
Lemma lstrip_suffix (l : list ascii) :
  exists ws : list ascii, l = ws ++ lstrip l.
Proof.
  induction l as [| c l (ws & IH)]; [exists []; reflexivity |].
  cbn. destruct (is_space c).
  - exists (c :: ws). cbn. rewrite <- IH. reflexivity.
  - exists []. reflexivity.
Qed.

(** A word in front of a text is its first word. *)
Lemma words_from_word (word rest current : list ascii) :
  Forall (fun c => is_space c = false) word ->
  words_from current (word ++ rest) = words_from (List.rev word ++ current) rest.
Proof.
  revert current. induction word as [| c word IH]; intros current Hword;
    [reflexivity |].
  inversion Hword as [| ? ? Hc Hrest]; subst.
  cbn. rewrite Hc, (IH _ Hrest), <- app_assoc. reflexivity.
Qed.

(** The first word of a text that starts, whitespace aside, with [word],
    and goes on, if it goes on, with a whitespace character. *)
Lemma first_word (ws word rest : list ascii) :
  Forall (fun c => is_space c = true) ws ->
  Forall (fun c => is_space c = false) word ->
  word <> [] ->
  rest = [] \/ (exists w tail, rest = w :: tail /\ is_space w = true) ->
  exists more : list (list ascii),
    words (strip (ws ++ word ++ rest)) = word :: more.
Proof.
  intros Hws Hword Hne Hrest. unfold strip.
  rewrite lstrip_spaces by assumption.
  destruct (exists_last Hne) as (body & z & ->).
  assert (Hz : is_space z = false).
  { rewrite Forall_forall in Hword. apply Hword, in_or_app.
    right; left; reflexivity. }
  assert (Hhead : lstrip ((body ++ [z]) ++ rest) = (body ++ [z]) ++ rest).
  { destruct body as [| a body].
    - cbn. rewrite Hz. reflexivity.
    - cbn. inversion Hword as [| ? ? Ha _]; subst. rewrite Ha. reflexivity. }
  rewrite Hhead, rev_app_distr, rev_app_distr. cbn [List.rev List.app].
  rewrite (@lstrip_keeps (List.rev rest) (List.rev body) z Hz).
  rewrite rev_app_distr. cbn [List.rev]. rewrite rev_involutive.
  destruct (lstrip_suffix (List.rev rest)) as (spaces & Hsuffix).
  set (kept := List.rev (lstrip (List.rev rest))).
  assert (Hkept : rest = kept ++ List.rev spaces).
  { unfold kept. rewrite <- rev_app_distr, <- Hsuffix, rev_involutive.
    reflexivity. }
  unfold words. rewrite (words_from_word (body ++ [z]) kept [] Hword), app_nil_r.
  assert (Hrev : List.rev (List.rev (body ++ [z])) = body ++ [z])
    by apply rev_involutive.
  destruct kept as [| w tail].
  - exists []. cbn [words_from].
    destruct (List.rev (body ++ [z])) eqn:Hr.
    + rewrite <- Hrev in Hne. cbn in Hne. now elim Hne.
    + rewrite Hrev. reflexivity.
  - destruct Hrest as [-> | (w' & tail' & -> & Hw')]; [discriminate Hkept |].
    cbn in Hkept. injection Hkept as <- _.
    exists (words_from [] tail). cbn [words_from]. rewrite Hw'.
    destruct (List.rev (body ++ [z])) eqn:Hr.
    + rewrite <- Hrev in Hne. cbn in Hne. now elim Hne.
    + rewrite Hrev. reflexivity.
Qed.

(** A text of whitespace has no word. *)
Lemma no_word (ws : list ascii) :
  Forall (fun c => is_space c = true) ws -> words (strip ws) = [].
Proof.
  intros Hws. unfold strip.
  assert (Hnil : lstrip ws = []).
  { rewrite <- (app_nil_r ws), lstrip_spaces; [reflexivity | exact Hws]. }
  rewrite Hnil. reflexivity.
Qed.

End Text_facts.

Section Out_of_band_facts.

Context {F : Type}.

Variable py_float : list ascii -> option F.

Lemma spaces_without_colon (ws : list ascii) :
  Forall (fun c => is_space c = true) ws -> ~ In ":"%char ws.
Proof.
  intros Hws Hin. rewrite Forall_forall in Hws.
  apply Hws in Hin. discriminate Hin.
Qed.


(** The first line with the marker and a colon decides the result. *)
Lemma scan_lines_first
  (before after : list (list ascii)) (line p0 part : list ascii)
  (ps : list (list ascii)) :
  Forall (fun l => contains power_marker l = false) before ->
  contains power_marker line = true ->
  split_on ":" line = p0 :: part :: ps ->
  scan_lines py_float (before ++ line :: after) =
    match words (strip part) with
    | power_str :: _ => py_float power_str
    | [] => None
    end.
Proof.
  intros Hbefore Hmarker Hsplit.
  induction Hbefore as [| l before Hl _ IH]; cbn [List.app scan_lines].
  - rewrite Hmarker, Hsplit. reflexivity.
  - rewrite Hl. exact IH.
Qed.


(** X5. The reading of a well-formed report.  The output is a sequence of
    lines, the first of them to hold the marker being
    [lead : <spaces> power <rest>], where the marker is in [lead], [lead]
    has no colon, [power] has no whitespace and no colon, and [rest] is
    empty or starts with whitespace: the result is [float(power)],
    whatever the lines after it are. *)
Theorem power_line_is_parsed
  (before after : list (list ascii)) (lead spaces power rest : list ascii)
  (stderr : string) :
  let line := lead ++ ":"%char :: spaces ++ power ++ rest in
  Forall (fun l => ~ In "010"%char l) (before ++ line :: after) ->
  Forall (fun l => contains power_marker l = false) before ->
  contains power_marker lead = true ->
  ~ In ":"%char lead ->
  Forall (fun c => is_space c = true) spaces ->
  Forall (fun c => is_space c = false) power ->
  ~ In ":"%char power ->
  power <> [] ->
  rest = [] \/ (exists w tail, rest = w :: tail /\ is_space w = true) ->
  read_ipmi_power py_float
    (Exited 0 (string_of_list_ascii (join_lines (before ++ line :: after)))
       stderr) = py_float power.
Proof.
  intros line Hlines Hbefore Hmarker Hlead Hspaces Hpower Hcolon Hne Hrest.
  cbn [read_ipmi_power Z.eqb negb].
  rewrite list_ascii_of_string_of_list_ascii, split_on_join;
    [| destruct before; discriminate | exact Hlines].
  assert (Hfront : ~ In ":"%char (spaces ++ power)).
  { intros Hin. apply in_app_or in Hin. destruct Hin as [Hin | Hin].
    - exact (spaces_without_colon _ Hspaces Hin).
    - exact (Hcolon Hin). }
  destruct (split_on_prefix ":" (spaces ++ power) rest Hfront)
    as (piece & pieces & Hpiece & Hsplit).
  assert (Hline : split_on ":" line =
                  lead :: ((spaces ++ power) ++ piece) :: pieces).
  { unfold line. rewrite (split_on_first _ _ _ Hlead), app_assoc, Hsplit.
    reflexivity. }
  rewrite (scan_lines_first before after line _ _ _ Hbefore
             (contains_app _ _ _ Hmarker) Hline).
  assert (Hpiece' : piece = [] \/
            (exists w tail, piece = w :: tail /\ is_space w = true)).
  { destruct Hrest as [-> | (w & tail & -> & Hw)].
    - cbn in Hpiece. injection Hpiece as <- _. left; reflexivity.
    - right. cbn in Hpiece.
      destruct (Ascii.eqb_spec w ":"%char) as [-> | _]; [discriminate Hw |].
      destruct (split_on ":" tail) as [| p ps] eqn:Htail.
      + injection Hpiece as <- _. exists w, []. split; [reflexivity | exact Hw].
      + injection Hpiece as <- _. exists w, p. split; [reflexivity | exact Hw]. }
  rewrite <- app_assoc.
  destruct (first_word spaces power piece Hspaces Hpower Hne Hpiece')
    as (more & ->).
  reflexivity.
Qed.

(** X6. The first line with the marker and a colon decides even when it
    has no value: with only whitespace between its first colon and the end
    of the line or the next colon, the result is [None], although a later
    line may hold a reading. *)
Theorem empty_power_line_gives_none
  (before after : list (list ascii)) (lead spaces rest : list ascii)
  (stderr : string) :
  let line := lead ++ ":"%char :: spaces ++ rest in
  Forall (fun l => ~ In "010"%char l) (before ++ line :: after) ->
  Forall (fun l => contains power_marker l = false) before ->
  contains power_marker lead = true ->
  ~ In ":"%char lead ->
  Forall (fun c => is_space c = true) spaces ->
  rest = [] \/ (exists tail, rest = ":"%char :: tail) ->
  read_ipmi_power py_float
    (Exited 0 (string_of_list_ascii (join_lines (before ++ line :: after)))
       stderr) = None.
Proof.
  intros line Hlines Hbefore Hmarker Hlead Hspaces Hrest.
  cbn [read_ipmi_power Z.eqb negb].
  rewrite list_ascii_of_string_of_list_ascii, split_on_join;
    [| destruct before; discriminate | exact Hlines].
  destruct (split_on_prefix ":" spaces rest
              (spaces_without_colon _ Hspaces))
    as (piece & pieces & Hpiece & Hsplit).
  assert (Hempty : piece = []).
  { destruct Hrest as [-> | (tail & ->)]; cbn in Hpiece;
      injection Hpiece as <- _; reflexivity. }
  subst piece. rewrite app_nil_r in Hsplit.
  assert (Hline : split_on ":" line = lead :: spaces :: pieces).
  { unfold line. rewrite (split_on_first _ _ _ Hlead), Hsplit.
    reflexivity. }
  rewrite (scan_lines_first before after line _ _ _ Hbefore
             (contains_app _ _ _ Hmarker) Hline).
  rewrite (no_word _ Hspaces). reflexivity.
Qed.

End Out_of_band_facts.

(** ** Interface validation *)

Section Validation_facts.

(** X7. The validation returns exactly when [which ipmitool] exits with
    status 0, the energy file exists, and it can be opened and read. *)
Theorem validation_passes_iff (env : Interfaces) :
  check_interfaces env = Validated <->
  which_ipmitool env = WhichExited 0 /\
  rapl_exists env = true /\
  rapl_open env = OpenOk.
Proof.
  destruct env as [which present opened]. unfold check_interfaces.
  cbn [which_ipmitool rapl_exists rapl_open]. split.
  - destruct which as [returncode | message].
    + destruct (Z.eqb_spec returncode 0) as [-> | Hcode]; cbn [negb].
      * destruct present; cbn; [| discriminate].
        destruct opened; cbn; try discriminate. intros _. repeat split.
      * destruct present; cbn; [| discriminate].
        destruct opened; cbn; discriminate.
    + destruct present; cbn; [| discriminate].
      destruct opened; cbn; discriminate.
  - intros (-> & -> & ->). reflexivity.
Qed.

(** X8. When the validation ends the program, the exit status is 1 and
    one or two problems are listed; the energy file is reported missing
    or unreadable, never both; and a missing file is always reported,
    whatever else failed. *)
Theorem validation_exit_lists_errors
  (env : Interfaces) (code : Z) (errors : list string) :
  check_interfaces env = SysExit code errors ->
  code = 1 /\
  (List.length errors = 1 \/ List.length errors = 2)%nat /\
  ~ (In ("RAPL interface not found at " ++ rapl_energy_file)%string errors /\
     In "Permission denied reading RAPL (try running with sudo)"%string
        errors) /\
  (rapl_exists env = false <->
   In ("RAPL interface not found at " ++ rapl_energy_file)%string errors).
Proof.
  destruct env as [which present opened]. unfold check_interfaces.
  cbn [which_ipmitool rapl_exists rapl_open].
  assert (Hdiff : ("RAPL interface not found at " ++ rapl_energy_file)%string
                  <> "Permission denied reading RAPL (try running with sudo)"%string)
    by (vm_compute; discriminate).
  assert (Hnot : "ipmitool not found in PATH"%string <>
                 ("RAPL interface not found at " ++ rapl_energy_file)%string)
    by (vm_compute; discriminate).
  assert (Hperm : "ipmitool not found in PATH"%string <>
                  "Permission denied reading RAPL (try running with sudo)"%string)
    by discriminate.
  assert (Hraised : forall message : string,
            ("Error checking ipmitool: " ++ message)%string <>
            ("RAPL interface not found at " ++ rapl_energy_file)%string)
    by (intros message; vm_compute; discriminate).
  destruct which as [returncode | message];
    [destruct (Z.eqb_spec returncode 0) as [-> | Hcode]; cbn [negb] |];
    destruct present; cbn [negb List.app exit_on_errors];
    try (destruct opened; cbn [List.app exit_on_errors]);
    intros Hexit; try discriminate Hexit;
    injection Hexit as <- <-;
    (split; [reflexivity |]);
    (split; [cbn; auto |]);
    (split;
     [ intros [Hmissing Hdenied]; cbn in Hmissing, Hdenied;
       repeat match goal with
              | Hor : _ \/ _ |- _ => destruct Hor
              | Hf : False |- _ => elim Hf
              end;
       try congruence;
       try (match goal with
            | Heq : (_ ++ _)%string = _ |- _ =>
                exfalso; revert Heq; vm_compute; discriminate
            end)
     | ]);
    (split;
     [ intros Habsent; try discriminate Habsent; cbn; auto
     | intros Hin; try reflexivity; exfalso; cbn in Hin;
       repeat match goal with
              | Hor : _ \/ _ |- _ => destruct Hor
              | Hf : False |- _ => elim Hf
              end;
       try congruence;
       try (match goal with
            | Heq : _ = _ |- _ => apply Hraised in Heq; elim Heq
            end);
       try (match goal with
            | Heq : _ = _ |- _ => symmetry in Heq; apply Hdiff in Heq; elim Heq
            end) ]).
Qed.

End Validation_facts.

(** ** More on the loop *)

Section Loop_more.

Context {F : Type} `{PyFloat F}.

(** The function [loop] goes the ways of the relation [loops], and no
    other. *)
Lemma loop_loops (duration : option F) (start_time : F)
  (script : list Tick) :
  forall (st st' : LoopState) (why : stop),
    loop duration start_time st script = (st', why) ->
    loops duration start_time st script st' why.
Proof.
  induction script as [| t script IH]; intros st st' why Hloop.
  - cbn in Hloop. destruct (running (self_of st)) eqn:Hrun;
      injection Hloop as <- <-.
    + apply loops_script_end, Hrun.
    + apply loops_not_running, Hrun.
  - cbn [loop] in Hloop.
    destruct (running (self_of st)) eqn:Hrun; cbn [negb] in Hloop.
    2: { injection Hloop as <- <-. apply loops_not_running, Hrun. }
    destruct (duration_elapsed duration start_time (check_clock t)) eqn:Hel.
    { injection Hloop as <- <-. apply loops_elapsed; assumption. }
    destruct (interruption t) eqn:Hsig.
    + destruct (take_measurement (self_of st) (round t)) as [[m | e] self]
        eqn:Htm.
      * destruct (sleep_accepts (interval (append self m))) eqn:Hsleep.
        -- cbn [sleeps] in Hloop. apply IH in Hloop.
           eapply loops_next; eassumption.
        -- injection Hloop as <- <-.
           eapply loops_sleep_refused; eassumption.
      * injection Hloop as <- <-.
        eapply loops_raised; try eassumption. rewrite Hsig. discriminate.
    + injection Hloop as <- <-. apply loops_sigint_collecting; assumption.
    + destruct (take_measurement (self_of st) (round t)) as [[m | e] self]
        eqn:Htm; injection Hloop as <- <-.
      * eapply loops_sigint_sleeping; eassumption.
      * eapply loops_raised; try eassumption. rewrite Hsig. discriminate.
Qed.

Lemma loops_loop (duration : option F) (start_time : F)
  (st : LoopState) (script : list Tick) (st' : LoopState) (why : stop) :
  loops duration start_time st script st' why ->
  loop duration start_time st script = (st', why).
Proof.
  induction 1 as [st Hrun | st script Hrun | st t script Hrun Hel
                  | st t script Hrun Hel Hsig
                  | st t script e self Hrun Hel Hsig Htm
                  | st t script m self Hrun Hel Hsig Htm
                  | st t script m self Hrun Hel Hsig Htm Hsleep
                  | st t script m self st' why Hrun Hel Hsig Htm Hsleep _ IH].
  - cbn. rewrite Hrun. reflexivity.
  - destruct script; cbn; rewrite Hrun; reflexivity.
  - cbn [loop]. rewrite Hrun, Hel. reflexivity.
  - cbn [loop]. rewrite Hrun, Hel, Hsig. reflexivity.
  - cbn [loop]. rewrite Hrun, Hel, Htm. cbn [negb].
    destruct (interruption t); [reflexivity | now elim Hsig | reflexivity].
  - cbn [loop]. rewrite Hrun, Hel, Hsig, Htm. reflexivity.
  - cbn [loop]. rewrite Hrun, Hel, Hsig, Htm. cbn [negb].
    rewrite Hsleep. reflexivity.
  - cbn [loop]. rewrite Hrun, Hel, Hsig, Htm. cbn [negb sleeps].
    rewrite Hsleep. exact IH.
Qed.

(** A run is the priming round and then the loop. *)
Lemma run_loops (self : PowerMonitor) (duration : option F) (w : World) :
  let r := run self duration w in
  (priming_interrupted w = true /\ stopped r = Crashed KeyboardInterrupt /\
   final r = set_running self true /\ count r = 0%nat /\ slept r = [] /\
   written r = []) \/
  (exists (e : exn) (self1 : PowerMonitor),
     priming_interrupted w = false /\
     take_measurement (set_running self true) (priming w) = (Raise e, self1) /\
     stopped r = Crashed e /\ final r = self1 /\ count r = 0%nat /\
     slept r = [] /\ written r = []) \/
  (exists (m0 : Measurement) (self1 : PowerMonitor) (st' : LoopState),
     priming_interrupted w = false /\
     take_measurement (set_running self true) (priming w) =
       (Return m0, self1) /\
     loops duration (start_clock w)
       {| self_of := self1; measurement_count := 0; sleeps := [] |}
       (ticks w) st' (stopped r) /\
     count r = measurement_count st' /\
     slept r = sleeps st' /\
     (final r = self_of st' \/ final r = set_running (self_of st') false)).
Proof.
  unfold run. cbv zeta.
  destruct (priming_interrupted w) eqn:Hsig.
  { left. cbn. repeat split. }
  right.
  destruct (take_measurement (set_running self true) (priming w))
    as [[m0 | e] self1] eqn:Hprime.
  2: { left. exists e, self1. cbn. repeat split. }
  right.
  destruct (loop duration (start_clock w)
              {| self_of := self1; measurement_count := 0; sleeps := [] |}
              (ticks w)) as [st' why] eqn:Hloop.
  apply loop_loops in Hloop.
  exists m0, self1, st'.
  split; [reflexivity |]. split; [reflexivity |].
  destruct why; cbn; (split; [exact Hloop |]);
    (split; [reflexivity |]); (split; [reflexivity |]);
    first [left; reflexivity | right; reflexivity].
Qed.

Lemma take_measurement_reflects
  (self self1 : PowerMonitor) (r : Round) (m : Measurement) :
  take_measurement self r = (Return m, self1) -> reflects m r.
Proof.
  unfold take_measurement, reflects.
  destruct (read_rapl_energy (rapl r)) as [e |] eqn:Hread.
  - destruct (calculate_rapl_power self e (clock r)) as [[p | x] self2];
      intros Heq; [| discriminate Heq].
    injection Heq as <- _. cbn. repeat split.
  - intros Heq. injection Heq as <- _. cbn. repeat split.
Qed.

Lemma take_measurement_keeps
  (self self1 : PowerMonitor) (r : Round) (o : outcome Measurement) :
  take_measurement self r = (o, self1) ->
  interval self1 = interval self /\ output_file self1 = output_file self /\
  running self1 = running self /\ measurements self1 = measurements self.
Proof.
  intros Htm. pose proof (take_measurement_frame self r) as Hframe.
  rewrite Htm in Hframe. exact Hframe.
Qed.

(** The samples of an execution of the loop: appended after those there
    were, one for each iteration gone through, each reflecting the round
    of its iteration. *)
Lemma loops_samples (duration : option F) (start_time : F)
  (st : LoopState) (script : list Tick) (st' : LoopState) (why : stop) :
  loops duration start_time st script st' why ->
  exists ms : list Measurement,
    measurements (self_of st') = measurements (self_of st) ++ ms /\
    measurement_count st' = (measurement_count st + List.length ms)%nat /\
    Forall2 reflects ms (map round (firstn (List.length ms) script)).
Proof.
  induction 1 as [st Hrun | st script Hrun | st t script Hrun Hel
                  | st t script Hrun Hel Hsig
                  | st t script e self Hrun Hel Hsig Htm
                  | st t script m self Hrun Hel Hsig Htm
                  | st t script m self Hrun Hel Hsig Htm Hsleep
                  | st t script m self st' why Hrun Hel Hsig Htm Hsleep _ IH].
  1-4: exists []; cbn; rewrite app_nil_r, Nat.add_0_r;
       repeat split; constructor.
  - exists []. cbn. rewrite app_nil_r, Nat.add_0_r.
    destruct (take_measurement_keeps _ _ _ _ Htm) as (_ & _ & _ & Hm).
    repeat split; [exact Hm | constructor].
  - exists [m]. cbn.
    destruct (take_measurement_keeps _ _ _ _ Htm) as (_ & _ & _ & Hm).
    rewrite Hm. repeat split; [lia |].
    constructor; [exact (take_measurement_reflects _ _ _ _ Htm) | constructor].
  - exists [m]. cbn.
    destruct (take_measurement_keeps _ _ _ _ Htm) as (_ & _ & _ & Hm).
    rewrite Hm. repeat split; [lia |].
    constructor; [exact (take_measurement_reflects _ _ _ _ Htm) | constructor].
  - destruct IH as (ms & Hms & Hcount & Hall).
    destruct (take_measurement_keeps _ _ _ _ Htm) as (_ & _ & _ & Hm).
    cbn in Hms, Hcount. rewrite Hm, <- app_assoc in Hms.
    exists (m :: ms). cbn. repeat split; [exact Hms | lia |].
    constructor; [exact (take_measurement_reflects _ _ _ _ Htm) | exact Hall].
Qed.

(** X9. A run only appends: the samples the object held are kept, the
    run's own samples come after them, as many as the run counts, and the
    i-th of them carries the readings of the i-th iteration: its clock,
    the out-of-band power as read, whether or not the energy read worked,
    and the energy as read, whether or not the out-of-band read worked. *)
Theorem samples_reflect_rounds
  (self : PowerMonitor) (duration : option F) (w : World) :
  let r := run self duration w in
  exists ms : list Measurement,
    measurements (final r) = measurements self ++ ms /\
    List.length ms = count r /\
    Forall2 reflects ms (map round (firstn (count r) (ticks w))).
Proof.
  intros r.
  destruct (run_loops self duration w)
    as [(_ & _ & Hf & Hc & _) |
        [(e & self1 & _ & Hprime & _ & Hf & Hc & _) |
         (m0 & self1 & st' & _ & Hprime & Hloops & Hc & _ & Hf)]];
    fold r in Hf, Hc.
  - exists []. rewrite Hf, Hc, app_nil_r. cbn. repeat split. constructor.
  - exists []. rewrite Hf, Hc, app_nil_r. cbn.
    destruct (take_measurement_keeps _ _ _ _ Hprime) as (_ & _ & _ & Hm).
    repeat split; [exact Hm | constructor].
  - fold r in Hloops.
    destruct (loops_samples _ _ _ _ _ _ Hloops) as (ms & Hms & Hcount & Hall).
    destruct (take_measurement_keeps _ _ _ _ Hprime) as (_ & _ & _ & Hm).
    cbn in Hms, Hcount. rewrite Hm in Hms. cbn in Hms.
    exists ms. rewrite Hc, Hcount.
    split; [destruct Hf as [-> | ->]; exact Hms |].
    split; [reflexivity | exact Hall].
Qed.

End Loop_more.

(** ** What a run never does *)

Section Loop_safety.

Context {F : Type} `{PyFloat F}.






(** With an interval that a sleep refuses, the loop takes one sample at
    most and never sleeps. *)
Lemma loops_refused (duration : option F) (start_time : F)
  (st : LoopState) (script : list Tick) (st' : LoopState) (why : stop) :
  loops duration start_time st script st' why ->
  sleep_accepts (interval (self_of st)) = false ->
  sleeps st' = sleeps st /\
  (measurement_count st' = measurement_count st \/
   measurement_count st' = S (measurement_count st) /\
   (why = Crashed ValueError \/ why = Interrupted)).
Proof.
  induction 1 as [st Hrun | st script Hrun | st t script Hrun Hel
                  | st t script Hrun Hel Hsig
                  | st t script e self Hrun Hel Hsig Htm
                  | st t script m self Hrun Hel Hsig Htm
                  | st t script m self Hrun Hel Hsig Htm Hsleep
                  | st t script m self st' why Hrun Hel Hsig Htm Hsleep _ IH];
    intros Hacc.
  1-5: split; [reflexivity | left; reflexivity].
  - split; [reflexivity |]. right. split; [reflexivity | right; reflexivity].
  - split; [reflexivity |]. right. split; [reflexivity | left; reflexivity].
  - destruct (take_measurement_keeps _ _ _ _ Htm) as (Hi & _).
    cbn in Hsleep. rewrite Hi, Hacc in Hsleep. discriminate Hsleep.
Qed.

(** X11. With an interval that [time.sleep] refuses (a negative one),
    the run never sleeps and takes one sample at most; when it takes one,
    it ends there, on the [ValueError] of the sleep or on an
    interruption. *)
Theorem refused_sleep_ends_run
  (self : PowerMonitor) (duration : option F) (w : World) :
  sleep_accepts (interval self) = false ->
  let r := run self duration w in
  slept r = [] /\
  (count r <= 1)%nat /\
  (count r = 1%nat ->
   stopped r = Crashed ValueError \/ stopped r = Interrupted).
Proof.
  intros Hacc r.
  destruct (run_loops self duration w)
    as [(_ & _ & _ & Hc & Hs & _) |
        [(e & self1 & _ & _ & _ & _ & Hc & Hs & _) |
         (m0 & self1 & st' & _ & Hprime & Hloops & Hc & Hs & _)]];
    fold r in Hc, Hs.
  - rewrite Hc, Hs. repeat split; [lia | discriminate].
  - rewrite Hc, Hs. repeat split; [lia | discriminate].
  - fold r in Hloops.
    destruct (take_measurement_keeps _ _ _ _ Hprime) as (Hi & _).
    cbn in Hi. rewrite <- Hi in Hacc.
    destruct (loops_refused _ _ _ _ _ _ Hloops Hacc) as [Hsl Hcount].
    cbn in Hsl, Hcount. rewrite Hs, Hc, Hsl.
    split; [reflexivity |].
    destruct Hcount as [-> | [-> Hwhy]].
    + split; [lia | discriminate].
    + split; [lia | intros _; exact Hwhy].
Qed.




(** A round on an object that holds no sample reports no power. *)
Lemma first_reading_no_power
  (self self1 : PowerMonitor) (r : Round) (m : Measurement) :
  prev_rapl_energy self = None ->
  take_measurement self r = (Return m, self1) ->
  rapl_pkg_watts m = None.
Proof.
  intros Hnone. unfold take_measurement, calculate_rapl_power.
  rewrite Hnone.
  destruct (read_rapl_energy (rapl r)); intros Heq;
    injection Heq as <- _; reflexivity.
Qed.

(** A round on an object that holds the sample [(e0, t0)]. *)
Lemma next_reading_power
  (self : PowerMonitor) (r : Round) (e0 e1 : Z) (t0 d m : F) :
  prev_rapl_energy self = Some e0 ->
  prev_rapl_time self = Some t0 ->
  read_rapl_energy (rapl r) = Some e1 ->
  fleb (fsub (clock r) t0) fzero = false ->
  of_int (corrected_delta (e1 - e0)) = Some d ->
  of_int 1000000 = Some m ->
  exists (sample : Measurement) (self1 : PowerMonitor),
    take_measurement self r = (Return sample, self1) /\
    rapl_energy_uj sample = Some e1 /\
    rapl_pkg_watts sample = Some (fdiv (fdiv d (fsub (clock r) t0)) m).
Proof.
  intros He Ht Hread Hdt Hd Hm.
  pose proof (calculate_next self e1 (clock r) He Ht Hdt) as Hnext.
  rewrite (watts_value _ _ Hd Hm) in Hnext.
  unfold take_measurement. rewrite Hread.
  destruct (calculate_rapl_power self e1 (clock r)) as [result self1].
  cbn [fst] in Hnext. subst result.
  eexists. exists self1. split; [reflexivity |]. cbn. split; reflexivity.
Qed.

(** The first sample of an execution of the loop that starts with no
    sample is taken in the first iteration. *)
Lemma loops_first_sample (duration : option F) (start_time : F)
  (st : LoopState) (script : list Tick) (st' : LoopState) (why : stop)
  (m : Measurement) :
  loops duration start_time st script st' why ->
  measurements (self_of st) = [] ->
  nth_error (measurements (self_of st')) 0 = Some m ->
  exists (t : Tick) (rest : list Tick) (self1 : PowerMonitor),
    script = t :: rest /\
    take_measurement (self_of st) (round t) = (Return m, self1).
Proof.
  intros Hloops Hempty Hfirst.
  destruct Hloops
    as [st Hrun | st script Hrun | st t script Hrun Hel
        | st t script Hrun Hel Hsig
        | st t script e self Hrun Hel Hsig Htm
        | st t script m' self Hrun Hel Hsig Htm
        | st t script m' self Hrun Hel Hsig Htm Hsleep
        | st t script m' self st' why Hrun Hel Hsig Htm Hsleep Htail].
  1-4: rewrite Hempty in Hfirst; discriminate Hfirst.
  - destruct (take_measurement_keeps _ _ _ _ Htm) as (_ & _ & _ & Hm).
    cbn in Hfirst. rewrite Hm, Hempty in Hfirst. discriminate Hfirst.
  - destruct (take_measurement_keeps _ _ _ _ Htm) as (_ & _ & _ & Hm).
    cbn in Hfirst. rewrite Hm, Hempty in Hfirst. cbn in Hfirst.
    injection Hfirst as ->. exists t, script, self. split; [reflexivity | exact Htm].
  - destruct (take_measurement_keeps _ _ _ _ Htm) as (_ & _ & _ & Hm).
    cbn in Hfirst. rewrite Hm, Hempty in Hfirst. cbn in Hfirst.
    injection Hfirst as ->. exists t, script, self. split; [reflexivity | exact Htm].
  - destruct (take_measurement_keeps _ _ _ _ Htm) as (_ & _ & _ & Hm).
    destruct (loops_samples _ _ _ _ _ _ Htail) as (ms & Hms & _).
    cbn in Hms. rewrite Hm, Hempty in Hms. cbn in Hms.
    rewrite Hms in Hfirst. cbn in Hfirst. injection Hfirst as ->.
    exists t, script, self. split; [reflexivity | exact Htm].
Qed.

(** X13. When the energy read of the priming round fails, the first
    sample of the run carries no power, whatever it reads: the first
    energy that is read only seeds the estimator. *)
Theorem unprimed_first_sample_has_no_power
  (iv : F) (o : option string) (vb : bool) (duration : option F)
  (w : World) (m : Measurement) :
  read_rapl_energy (rapl (priming w)) = None ->
  nth_error (measurements (final (run (init iv o vb) duration w))) 0
    = Some m ->
  rapl_pkg_watts m = None.
Proof.
  intros Hfail Hfirst.
  destruct (run_loops (init iv o vb) duration w)
    as [(_ & _ & Hf & _) |
        [(e & self1 & _ & Hprime & _ & Hf & _) |
         (m0 & self1 & st' & _ & Hprime & Hloops & _ & _ & Hf)]].
  - rewrite Hf in Hfirst. discriminate Hfirst.
  - destruct (take_measurement_keeps _ _ _ _ Hprime) as (_ & _ & _ & Hm).
    rewrite Hf, Hm in Hfirst. discriminate Hfirst.
  - unfold take_measurement in Hprime. rewrite Hfail in Hprime.
    injection Hprime as _ <-.
    assert (Hfirst' : nth_error (measurements (self_of st')) 0 = Some m)
      by (destruct Hf as [Hf | Hf]; rewrite Hf in Hfirst; exact Hfirst).
    destruct (loops_first_sample _ _ _ _ _ _ _ Hloops eq_refl Hfirst')
      as (t & rest & self2 & _ & Htm).
    cbn [self_of] in Htm.
    exact (first_reading_no_power (set_running (init iv o vb) true) self2
             (round t) m eq_refl Htm).
Qed.

(** X14. When the priming round reads an energy [e0] and the first
    iteration, gone through, reads [e1] at a later clock, the first sample
    carries the power over the time since the priming round,
    [corrected (e1 - e0) / (t1 - t0) / 1_000_000]: the priming round
    seeds the estimator. *)
Theorem primed_first_sample_has_power
  (iv : F) (o : option string) (vb : bool) (duration : option F)
  (w : World) (t : Tick) (rest : list Tick) (e0 e1 : Z) (d m : F) :
  priming_interrupted w = false ->
  read_rapl_energy (rapl (priming w)) = Some e0 ->
  ticks w = t :: rest ->
  duration_elapsed duration (start_clock w) (check_clock t) = false ->
  interruption t <> SigintCollecting ->
  read_rapl_energy (rapl (round t)) = Some e1 ->
  fleb (fsub (clock (round t)) (clock (priming w))) fzero = false ->
  of_int (corrected_delta (e1 - e0)) = Some d ->
  of_int 1000000 = Some m ->
  exists sample : Measurement,
    nth_error (measurements (final (run (init iv o vb) duration w))) 0
      = Some sample /\
    rapl_energy_uj sample = Some e1 /\
    rapl_pkg_watts sample =
      Some (fdiv (fdiv d (fsub (clock (round t)) (clock (priming w)))) m).
Proof.
  intros Hsig Hread0 Hticks Hel Hint Hread1 Hdt Hd Hm.
  assert (Hprime0 : exists m0,
            take_measurement (set_running (init iv o vb) true) (priming w)
            = (Return m0,
               set_prev (set_running (init iv o vb) true) (Some e0)
                 (Some (clock (priming w))))).
  { unfold take_measurement. rewrite Hread0. cbn. eexists. reflexivity. }
  destruct Hprime0 as (m0' & Hprime0).
  destruct (run_loops (init iv o vb) duration w)
    as [(Hsig' & _) |
        [(e & self1 & _ & Hprime & _) |
         (m0 & self1 & st' & _ & Hprime & Hloops & _ & _ & Hf)]].
  - rewrite Hsig in Hsig'. discriminate Hsig'.
  - rewrite Hprime0 in Hprime. discriminate Hprime.
  - rewrite Hprime0 in Hprime. injection Hprime as _ <-.
    rewrite Hticks in Hloops.
    destruct (next_reading_power
                (set_prev (set_running (init iv o vb) true) (Some e0)
                   (Some (clock (priming w))))
                (round t) e0 e1 (clock (priming w)) d m
                eq_refl eq_refl Hread1 Hdt Hd Hm)
      as (sample & self2 & Htm & Henergy & Hpower).
    exists sample. split; [| split; assumption].
    assert (Hgoal : nth_error (measurements (self_of st')) 0 = Some sample).
    { destruct (take_measurement_keeps _ _ _ _ Htm) as (_ & _ & _ & Hms).
      cbn in Hms.
      inversion Hloops
        as [ | st script Hrun | st t' script Hrun Hel'
           | st t' script Hrun Hel' Hsig'
           | st t' script e self Hrun Hel' Hsig' Htm'
           | st t' script m' self Hrun Hel' Hsig' Htm'
           | st t' script m' self Hrun Hel' Hsig' Htm' Hsleep
           | st t' script m' self st'' why Hrun Hel' Hsig' Htm' Hsleep Htail];
        subst; cbn in *.
      - discriminate Hrun.
      - rewrite Hel in Hel'. discriminate Hel'.
      - now elim Hint.
      - rewrite Htm in Htm'. discriminate Htm'.
      - rewrite Htm in Htm'. injection Htm' as <- <-. rewrite Hms. reflexivity.
      - rewrite Htm in Htm'. injection Htm' as <- <-. rewrite Hms. reflexivity.
      - rewrite Htm in Htm'. injection Htm' as <- <-.
        destruct (loops_samples _ _ _ _ _ _ Htail) as (ms & Hms' & _).
        cbn in Hms'. rewrite Hms in Hms'. cbn in Hms'. rewrite Hms'.
        reflexivity. }
    destruct Hf as [-> | ->]; exact Hgoal.
Qed.

End Loop_safety.

(** ** The CSV sink *)

Section Csv_facts.

Context {F : Type} `{PyFloat F}.


End Csv_facts.

(** ** The duration in exact arithmetic *)

Section Exact_loop_facts.

Local Open Scope Q_scope.




End Exact_loop_facts.

(** ** Further concrete runs *)

Section More_concrete_runs.

Local Open Scope float_scope.

Ltac not_among :=
  let Hin := fresh "Hin" in
  intros Hin; cbn in Hin;
  repeat (destruct Hin as [Hin | Hin]; [discriminate Hin |]);
  exact Hin.

(** A 32-bit counter at 4294967000 uJ, 1000 uJ later, two seconds
    apart. *)
Lemma wrapped_counter_power_is_exact_witness :
  fst (calculate_rapl_power
         (snd (calculate_rapl_power monitor 4294967000 0))
         ((4294967000 + 1000) mod 2 ^ 32) 2) =
    Return (Some (fdiv (fdiv 1000 (fsub 2 0)) 1000000)).
Proof.
  apply (@wrapped_counter_power_is_exact float _ monitor 4294967000 1000
           0 2 1000 1000000).
  - apply both_or_neither_init.
  - split; [intros Hc; discriminate Hc | reflexivity].
  - split; [intros Hc; discriminate Hc | reflexivity].
  - vm_compute. reflexivity.
  - vm_compute. reflexivity.
  - vm_compute. reflexivity.
Defined.

(** The text the kernel shows for 262143328850 uJ. *)
Lemma decimal_text_is_read_back_witness :
  read_rapl_energy
    (FileContent
       (string_of_list_ascii ([] ++ decimal 262143328850 ++ ["010"%char])))
    = Some 262143328850%Z.
Proof.
  apply decimal_text_is_read_back.
  - vm_compute. reflexivity.
  - constructor.
  - constructor; [reflexivity | constructor].
Defined.


(** A report of [ipmitool]: an empty line, the reading, another line. *)
Lemma power_line_is_parsed_witness :
  read_ipmi_power float_of_literal
    (Exited 0
       (string_of_list_ascii
          (join_lines
             ([[]] ++
              (power_marker ++ ":"%char ::
               list_ascii_of_string " " ++ list_ascii_of_string "220" ++
               list_ascii_of_string " Watts") ::
              [list_ascii_of_string "Minimum: 12 Watts"])))
       "") = float_of_literal (list_ascii_of_string "220").
Proof.
  apply (power_line_is_parsed float_of_literal
           [[]] [list_ascii_of_string "Minimum: 12 Watts"]
           power_marker (list_ascii_of_string " ")
           (list_ascii_of_string "220") (list_ascii_of_string " Watts") "").
  - repeat constructor; not_among.
  - repeat constructor.
  - vm_compute. reflexivity.
  - not_among.
  - repeat constructor.
  - repeat constructor.
  - not_among.
  - discriminate.
  - right. exists " "%char, (list_ascii_of_string "Watts").
    split; reflexivity.
Defined.

(** The reading line has no value; the line after it has one. *)
Lemma empty_power_line_gives_none_witness :
  read_ipmi_power float_of_literal
    (Exited 0
       (string_of_list_ascii
          (join_lines
             ([] ++
              (power_marker ++ ":"%char :: list_ascii_of_string " " ++ []) ::
              [list_ascii_of_string "Instantaneous power reading: 5 Watts"])))
       "") = None.
Proof.
  apply (empty_power_line_gives_none float_of_literal
           [] [list_ascii_of_string "Instantaneous power reading: 5 Watts"]
           power_marker (list_ascii_of_string " ") [] "").
  - repeat constructor; not_among.
  - constructor.
  - vm_compute. reflexivity.
  - not_among.
  - repeat constructor.
  - left. reflexivity.
Defined.

(** [ipmitool] is missing and so is the energy file. *)
Lemma validation_exit_lists_errors_witness :
  1%Z = 1%Z /\
  (List.length
     ["ipmitool not found in PATH"%string;
      ("RAPL interface not found at " ++ rapl_energy_file)%string] = 1 \/
   List.length
     ["ipmitool not found in PATH"%string;
      ("RAPL interface not found at " ++ rapl_energy_file)%string] = 2)%nat /\
  ~ (In ("RAPL interface not found at " ++ rapl_energy_file)%string
       ["ipmitool not found in PATH"%string;
        ("RAPL interface not found at " ++ rapl_energy_file)%string] /\
     In "Permission denied reading RAPL (try running with sudo)"%string
       ["ipmitool not found in PATH"%string;
        ("RAPL interface not found at " ++ rapl_energy_file)%string]) /\
  (rapl_exists
     {| which_ipmitool := WhichExited 1; rapl_exists := false;
        rapl_open := OpenOk |} = false <->
   In ("RAPL interface not found at " ++ rapl_energy_file)%string
     ["ipmitool not found in PATH"%string;
      ("RAPL interface not found at " ++ rapl_energy_file)%string]).
Proof.
  apply (validation_exit_lists_errors
           {| which_ipmitool := WhichExited 1; rapl_exists := false;
              rapl_open := OpenOk |}).
  reflexivity.
Defined.

(** An interval of minus one second. *)
Lemma refused_sleep_ends_run_witness :
  let r := run (init (-1) (Some "out.csv"%string) true) None steady_world in
  slept r = [] /\
  (count r <= 1)%nat /\
  (count r = 1%nat ->
   stopped r = Crashed ValueError \/ stopped r = Interrupted).
Proof.
  apply (refused_sleep_ends_run
           (init (-1) (Some "out.csv"%string) true) None steady_world).
  vm_compute. reflexivity.
Defined.


Lemma unprimed_first_sample_has_no_power_witness :
  rapl_pkg_watts
    {| timestamp := "2024-01-01 00:00:00.000"; timestamp_unix := 1;
       ipmi_watts := Some 100; rapl_pkg_watts := None;
       rapl_energy_uj := Some 2000000%Z |} = None.
Proof.
  apply (unprimed_first_sample_has_no_power 1 (Some "out.csv"%string) true
           None unprimed_world).
  - reflexivity.
  - vm_compute. reflexivity.
Defined.

Lemma primed_first_sample_has_power_witness :
  exists sample : Measurement,
    nth_error (measurements (final (run monitor None steady_world))) 0
      = Some sample /\
    rapl_energy_uj sample = Some 2000000%Z /\
    rapl_pkg_watts sample =
      Some (fdiv (fdiv 1000000 (fsub 0.25 0)) 1000000).
Proof.
  apply (primed_first_sample_has_power 1 (Some "out.csv"%string) true None
           steady_world (tick_at 0.25 "2000000" 0.5)
           [tick_at 1.5 "4000000" 1.75] 1000000 2000000 1000000 1000000).
  - reflexivity.
  - vm_compute. reflexivity.
  - reflexivity.
  - reflexivity.
  - discriminate.
  - vm_compute. reflexivity.
  - vm_compute. reflexivity.
  - vm_compute. reflexivity.
  - vm_compute. reflexivity.
Defined.




End More_concrete_runs.
